(** * ShareSafely upload gateway (01-ShareSafely-File-Share/code/server.js)

    A shallow embedding of the Express request handlers of [server.js] and
    of the helper functions they call, followed by the properties of the
    upload-and-delegate-access workflow.

    Conventions.
    - A JavaScript string is the list of its UTF-16 code units.
    - A JavaScript number that the program only ever uses as an integer is
      an element of [Z], or [NaN].
    - The asynchronous functions run to completion one after the other
      ([await]), so they are written in a state-and-exception monad whose
      state is the log of the calls made to the storage service and the
      number of clock readings taken so far. *)

From Stdlib Require Import ZArith NArith List Bool Lia String Ascii Decimal.
From Stdlib Require Import DecimalPos.
Import ListNotations.

Open Scope Z_scope.

(** ** JavaScript strings *)

Module JS.

Definition jsstring := list N.

(** The code units of an ASCII literal of the source text. *)
Definition lit (s : string) : jsstring :=
  List.map N_of_ascii (list_ascii_of_string s).

Definition jsstring_eqb (a b : jsstring) : bool :=
  if list_eq_dec N.eq_dec a b then true else false.

Definition in_range (lo hi c : N) : bool := ((lo <=? c) && (c <=? hi))%N.

Definition is_digit (c : N) : bool := in_range 48 57 c.
Definition is_upper (c : N) : bool := in_range 65 90 c.
Definition is_lower (c : N) : bool := in_range 97 122 c.

Definition CHAR_UNDERSCORE : N := 95.
Definition CHAR_HYPHEN : N := 45.
Definition CHAR_DOT : N := 46.
Definition CHAR_FORWARD_SLASH : N := 47.

(** [s.replace(/[^...]/g, r)] for a negated character class and a
    one-unit replacement: without the [u] flag the regular expression
    engine walks the string one code unit at a time, and the [g] flag
    replaces every match. [keep] is the class that is negated. *)
Definition replace_outside (keep : N -> bool) (r : N) (s : jsstring) : jsstring :=
  List.map (fun c => if keep c then c else r) s.

(** [String.prototype.toLowerCase] on the ASCII letters. Code units
    outside ASCII are left as they are: the only non-ASCII character whose
    lower case is an ASCII letter is U+212A (to [k]), a letter that no key
    of the content-type table contains. *)
Definition toLowerCase (s : jsstring) : jsstring :=
  List.map (fun c => if is_upper c then (c + 32)%N else c) s.

(** [String.prototype.slice(from, to)] for indices inside the string. *)
Definition slice (s : jsstring) (from to : Z) : jsstring :=
  firstn (Z.to_nat (to - from)) (skipn (Z.to_nat from) s).

(** Decimal digits of a [Decimal.uint], most significant first. *)
Fixpoint uint_units (u : Decimal.uint) : jsstring :=
  match u with
  | Nil => []
  | D0 u => 48%N :: uint_units u
  | D1 u => 49%N :: uint_units u
  | D2 u => 50%N :: uint_units u
  | D3 u => 51%N :: uint_units u
  | D4 u => 52%N :: uint_units u
  | D5 u => 53%N :: uint_units u
  | D6 u => 54%N :: uint_units u
  | D7 u => 55%N :: uint_units u
  | D8 u => 56%N :: uint_units u
  | D9 u => 57%N :: uint_units u
  end.

(** [Number.prototype.toString] (as applied by a template literal) to an
    integer: the decimal digits, after a minus sign for a negative one.
    Every time value lies within 8.64e15 of zero, well inside the range
    where JavaScript prints an integer in full. *)
Definition Number_toString (z : Z) : jsstring :=
  match z with
  | Z0 => [48%N]
  | Zpos p => uint_units (Pos.to_uint p)
  | Zneg p => CHAR_HYPHEN :: uint_units (Pos.to_uint p)
  end.

(** JavaScript numbers as far as the program computes with them: the
    integers, the two infinities and [NaN]. *)
Inductive number :=
| Num (z : Z)
| NaN
| Infinity (negative : bool).

Definition num_neg (a : number) : number :=
  match a with
  | Num x => Num (- x)
  | NaN => NaN
  | Infinity n => Infinity (negb n)
  end.

Definition num_add (a b : number) : number :=
  match a, b with
  | Num x, Num y => Num (x + y)
  | Infinity n, Num _ => Infinity n
  | Num _, Infinity n => Infinity n
  | Infinity n, Infinity m => if Bool.eqb n m then Infinity n else NaN
  | _, _ => NaN
  end.

Definition num_sub (a b : number) : number :=
  match a, b with
  | Num x, Num y => Num (x - y)
  | _, _ => num_add a (num_neg b)
  end.

Definition num_mul (a b : number) : number :=
  match a, b with
  | Num x, Num y => Num (x * y)
  | Infinity n, Num y =>
      if y =? 0 then NaN else Infinity (xorb n (y <? 0))
  | Num x, Infinity n =>
      if x =? 0 then NaN else Infinity (xorb n (x <? 0))
  | Infinity n, Infinity m => Infinity (xorb n m)
  | _, _ => NaN
  end.

(** The double nearest to an integer: the integer itself up to 2^53 in
    magnitude; beyond, the integer rounded to 53 significant bits, ties
    to the even significand; an infinity from 2^1024 on. *)
Definition round_to_double (v : Z) : number :=
  let a := Z.abs v in
  if a <=? 2 ^ 53 then Num v
  else
    let e := Z.log2 a - 52 in
    let q := a / 2 ^ e in
    let r := a mod 2 ^ e in
    let half := 2 ^ (e - 1) in
    let q' :=
      if (half <? r) || ((r =? half) && Z.odd q) then q + 1 else q in
    let m := q' * 2 ^ e in
    if 2 ^ 1024 <=? m then Infinity (v <? 0)
    else Num (if v <? 0 then - m else m).

(** *** parseInt *)

(** White space and line terminators skipped by [parseInt]. *)
Definition is_whitespace (c : N) : bool :=
  existsb (N.eqb c)
    [9; 10; 11; 12; 13; 32; 160; 5760; 8232; 8233; 8239; 8287; 12288; 65279]%N
  || in_range 8192 8202 c.

Fixpoint trim_start (s : jsstring) : jsstring :=
  match s with
  | c :: s' => if is_whitespace c then trim_start s' else s
  | [] => []
  end.

Definition digit_value (radix : N) (c : N) : option N :=
  let v :=
    if is_digit c then Some (c - 48)%N
    else if is_lower c then Some (c - 97 + 10)%N
    else if is_upper c then Some (c - 65 + 10)%N
    else None in
  match v with
  | Some d => if (d <? radix)%N then Some d else None
  | None => None
  end.

(** The longest prefix of digits of the radix, folded into its value;
    [None] when that prefix is empty. *)
Fixpoint parse_digits (radix : N) (s : jsstring) (acc : option N) : option N :=
  match s with
  | c :: s' =>
      match digit_value radix c with
      | Some d =>
          parse_digits radix s'
            (Some (match acc with Some a => a * radix + d | None => d end)%N)
      | None => acc
      end
  | [] => acc
  end.

(** [parseInt(s)] with no radix argument: the integer the digits spell,
    as the nearest double (V8 rounds correctly in radix 10 and 16). *)
Definition parseInt (s : jsstring) : number :=
  let s1 := trim_start s in
  let '(neg, s2) :=
    match s1 with
    | 45%N :: r => (true, r)
    | 43%N :: r => (false, r)
    | _ => (false, s1)
    end in
  let '(radix, s3) :=
    match s2 with
    | 48%N :: 120%N :: r => (16%N, r)
    | 48%N :: 88%N :: r => (16%N, r)
    | _ => (10%N, s2)
    end in
  match parse_digits radix s3 None with
  | Some v => round_to_double (if neg then - Z.of_N v else Z.of_N v)
  | None => NaN
  end.

(** [a || b] on a possibly undefined string: the empty string is falsy. *)
Definition or_else (a : option jsstring) (b : jsstring) : jsstring :=
  match a with
  | Some (c :: s) => c :: s
  | _ => b
  end.

End JS.

Import JS.

(** ** Node's [path.extname] (POSIX flavour)

    The loop of the library function, run over the code units from the
    last one to the first; [break] ends the recursion. *)

Module Path.

Record scan := {
  startDot : Z;
  startPart : Z;
  end_ : Z;
  matchedSlash : bool;
  preDotState : Z
}.

Definition scan0 : scan :=
  {| startDot := -1; startPart := 0; end_ := -1;
     matchedSlash := true; preDotState := 0 |}.

(** [rpath] holds the code units at indices [i], [i-1], ..., [0]. *)
Fixpoint extname_loop (rpath : jsstring) (i : Z) (st : scan) : scan :=
  match rpath with
  | [] => st
  | code :: rest =>
      if (code =? CHAR_FORWARD_SLASH)%N then
        if negb (matchedSlash st) then
          {| startDot := startDot st; startPart := i + 1; end_ := end_ st;
             matchedSlash := matchedSlash st; preDotState := preDotState st |}
        else extname_loop rest (i - 1) st
      else
        let st1 :=
          if end_ st =? -1 then
            {| startDot := startDot st; startPart := startPart st;
               end_ := i + 1; matchedSlash := false;
               preDotState := preDotState st |}
          else st in
        let st2 :=
          if (code =? CHAR_DOT)%N then
            if startDot st1 =? -1 then
              {| startDot := i; startPart := startPart st1; end_ := end_ st1;
                 matchedSlash := matchedSlash st1;
                 preDotState := preDotState st1 |}
            else if negb (preDotState st1 =? 1) then
              {| startDot := startDot st1; startPart := startPart st1;
                 end_ := end_ st1; matchedSlash := matchedSlash st1;
                 preDotState := 1 |}
            else st1
          else if negb (startDot st1 =? -1) then
            {| startDot := startDot st1; startPart := startPart st1;
               end_ := end_ st1; matchedSlash := matchedSlash st1;
               preDotState := -1 |}
          else st1 in
        extname_loop rest (i - 1) st2
  end.

Definition extname (path : jsstring) : jsstring :=
  let st := extname_loop (List.rev path) (Z.of_nat (List.length path) - 1) scan0 in
  if (startDot st =? -1)
     || (end_ st =? -1)
     || (preDotState st =? 0)
     || ((preDotState st =? 1)
         && (startDot st =? end_ st - 1)
         && (startDot st =? startPart st + 1))
  then []
  else slice path (startDot st) (end_ st).

End Path.

(** ** Dates

    A [Date] holds a time value in milliseconds since the epoch, or is
    invalid. The constructor clips: a time value farther than 8.64e15 ms
    from the epoch, or [NaN], gives an invalid date. *)

Module JSDate.

Definition Date := option Z.

Definition MAX_TIME : Z := 8640000000000000.

Definition new_Date (v : number) : Date :=
  match v with
  | Num z => if Z.abs z <=? MAX_TIME then Some z else None
  | NaN => None
  | Infinity _ => None
  end.

Definition valueOf (d : Date) : number :=
  match d with
  | Some z => Num z
  | None => NaN
  end.

(** The ISO-8601 rendering of a valid date, kept as the time value it
    denotes (the rendering is injective on time values). *)
Inductive iso_string :=
| ISO (t : Z).

End JSDate.

Import JSDate.

(** ** Errors and results *)

Record Error := { message : jsstring }.

Inductive result (A : Type) :=
| Ok (a : A)
| Throw (e : Error).

Arguments Ok {A} a.
Arguments Throw {A} e.

(** [Date.prototype.toISOString] throws a [RangeError] on an invalid
    date. *)
Definition toISOString (d : Date) : result iso_string :=
  match d with
  | Some t => Ok (ISO t)
  | None => Throw {| message := lit "Invalid time value" |}
  end.

(** ** Buffers

    A Node [Buffer]: its length and the byte at each index below it. *)

Record Buffer := {
  buf_length : N;
  buf_byte : N -> N
}.

(** ** The storage SDK

    [BlobSASPermissions] and its [parse] and [toString], the options
    passed to [generateBlobSASQueryParameters], and what that function
    returns: the signed descriptor, kept as the values it signs. *)

Module SDK.

Record BlobSASPermissions := {
  read : bool;
  add : bool;
  create : bool;
  write : bool;
  delete : bool;
  deleteVersion : bool;
  tag : bool;
  move : bool;
  execute : bool;
  setImmutabilityPolicy : bool;
  permanentDelete : bool
}.

Definition no_permissions : BlobSASPermissions :=
  {| read := false; add := false; create := false; write := false;
     delete := false; deleteVersion := false; tag := false; move := false;
     execute := false; setImmutabilityPolicy := false;
     permanentDelete := false |}.

Definition set_permission (p : BlobSASPermissions) (c : N)
  : result BlobSASPermissions :=
  let mk r a cr w d x t m e i y :=
    Ok {| read := r; add := a; create := cr; write := w; delete := d;
          deleteVersion := x; tag := t; move := m; execute := e;
          setImmutabilityPolicy := i; permanentDelete := y |} in
  let '(Build_BlobSASPermissions r a cr w d x t m e i y) := p in
  if (c =? 114)%N then mk true a cr w d x t m e i y
  else if (c =? 97)%N then mk r true cr w d x t m e i y
  else if (c =? 99)%N then mk r a true w d x t m e i y
  else if (c =? 119)%N then mk r a cr true d x t m e i y
  else if (c =? 100)%N then mk r a cr w true x t m e i y
  else if (c =? 120)%N then mk r a cr w d true t m e i y
  else if (c =? 116)%N then mk r a cr w d x true m e i y
  else if (c =? 109)%N then mk r a cr w d x t true e i y
  else if (c =? 101)%N then mk r a cr w d x t m true i y
  else if (c =? 105)%N then mk r a cr w d x t m e true y
  else if (c =? 121)%N then mk r a cr w d x t m e i true
  else Throw {| message := lit "Invalid permission: " ++ [c] |}.

Fixpoint parse_from (p : BlobSASPermissions) (s : jsstring)
  : result BlobSASPermissions :=
  match s with
  | [] => Ok p
  | c :: s' =>
      match set_permission p c with
      | Ok p' => parse_from p' s'
      | Throw e => Throw e
      end
  end.

Definition parse (s : jsstring) : result BlobSASPermissions :=
  parse_from no_permissions s.

Definition permissions_toString (p : BlobSASPermissions) : jsstring :=
  (if read p then lit "r" else [])
  ++ (if add p then lit "a" else [])
  ++ (if create p then lit "c" else [])
  ++ (if write p then lit "w" else [])
  ++ (if delete p then lit "d" else [])
  ++ (if deleteVersion p then lit "x" else [])
  ++ (if tag p then lit "t" else [])
  ++ (if move p then lit "m" else [])
  ++ (if execute p then lit "e" else [])
  ++ (if setImmutabilityPolicy p then lit "i" else [])
  ++ (if permanentDelete p then lit "y" else []).

Inductive SASProtocol :=
| Https
| HttpsAndHttp.

Record BlobSASSignatureValues := {
  sv_containerName : jsstring;
  sv_blobName : jsstring;
  sv_permissions : BlobSASPermissions;
  sv_protocol : SASProtocol;
  sv_startsOn : Date;
  sv_expiresOn : Date
}.

Record UserDelegationKey := {
  udk_signedStartsOn : Date;
  udk_signedExpiresOn : Date;
  udk_value : jsstring
}.

(** The query parameters of a user delegation SAS: the signature covers
    the signed values, the key and the account name. *)
Record SASQueryParameters := {
  sas_values : BlobSASSignatureValues;
  sas_key : UserDelegationKey;
  sas_accountName : jsstring
}.

Definition generateBlobSASQueryParameters
    (values : BlobSASSignatureValues) (key : UserDelegationKey)
    (accountName : jsstring) : SASQueryParameters :=
  {| sas_values := values; sas_key := key; sas_accountName := accountName |}.

(** The SDK writes a date into a token as its ISO-8601 rendering without
    the milliseconds. *)
Definition truncate_to_seconds (d : Date) : Date :=
  match d with
  | Some t => Some (1000 * (t / 1000))
  | None => None
  end.

(** [SASQueryParameters.prototype.toString]: the query string, kept as
    the parameters it spells out. The start and expiry of the grant
    ([st], [se]) and of the key ([skt], [ske]) are written in whole
    seconds. *)
Definition SASQueryParameters_toString (q : SASQueryParameters)
  : SASQueryParameters :=
  {| sas_values :=
       {| sv_containerName := sv_containerName (sas_values q);
          sv_blobName := sv_blobName (sas_values q);
          sv_permissions := sv_permissions (sas_values q);
          sv_protocol := sv_protocol (sas_values q);
          sv_startsOn := truncate_to_seconds (sv_startsOn (sas_values q));
          sv_expiresOn := truncate_to_seconds (sv_expiresOn (sas_values q)) |};
     sas_key :=
       {| udk_signedStartsOn :=
            truncate_to_seconds (udk_signedStartsOn (sas_key q));
          udk_signedExpiresOn :=
            truncate_to_seconds (udk_signedExpiresOn (sas_key q));
          udk_value := udk_value (sas_key q) |};
     sas_accountName := sas_accountName q |}.

(** A blob client, identified by what its [url] is built from. *)
Record BlobClient := {
  bc_endpoint : jsstring;
  bc_containerName : jsstring;
  bc_blobName : jsstring
}.

(** [`${blobClient.url}?${sasToken}`], kept as its two halves: the blob
    client and the token string, the latter as [toString] spells it. *)
Record SasUrl := {
  su_blob : BlobClient;
  su_token : SASQueryParameters
}.

(** The requests the program can send to the storage service.
    [DeleteBlob] is part of the service; [server.js] has no call site
    for it. *)
Inductive call :=
| CreateIfNotExists (containerName : jsstring)
| Upload (containerName blobName : jsstring) (body : Buffer)
    (contentLength : N) (blobContentType : jsstring)
| GetUserDelegationKey (startsOn expiresOn : Date)
| DeleteBlob (containerName blobName : jsstring).

(** A settled promise: resolved with the piece of the response the
    program reads, or rejected. *)
Inductive reply :=
| Resolved (v : jsstring)
| Rejected (e : Error).

Record event := {
  ev_call : call;
  ev_reply : reply
}.

End SDK.

Import SDK.

(** ** Regular expressions over code units

    Enough of the pattern language to write [^[0-9]+-[A-Za-z0-9._-]+$];
    [matches r s] says that [r] matches the whole of [s]. *)

Module Regex.

Inductive regex :=
| Class (p : N -> bool)
| Seq (r1 r2 : regex)
| Plus (r : regex).

Inductive matches : regex -> jsstring -> Prop :=
| MClass p c : p c = true -> matches (Class p) [c]
| MSeq r1 r2 s1 s2 :
    matches r1 s1 -> matches r2 s2 -> matches (Seq r1 r2) (s1 ++ s2)
| MPlusOne r s : matches r s -> matches (Plus r) s
| MPlusMore r s1 s2 :
    matches r s1 -> matches (Plus r) s2 -> matches (Plus r) (s1 ++ s2).

(** The class [[A-Za-z0-9._-]]. *)
Definition is_key_char (c : N) : bool :=
  is_upper c || is_lower c || is_digit c
  || (c =? CHAR_DOT)%N || (c =? CHAR_UNDERSCORE)%N || (c =? CHAR_HYPHEN)%N.

Definition key_pattern : regex :=
  Seq (Plus (Class is_digit))
      (Seq (Class (N.eqb CHAR_HYPHEN)) (Plus (Class is_key_char))).

(** A direct matcher for [key_pattern]: the digits, the hyphen, the rest. *)
Fixpoint drop_digits (s : jsstring) : jsstring :=
  match s with
  | c :: s' => if is_digit c then drop_digits s' else s
  | [] => []
  end.

Definition key_pattern_b (s : jsstring) : bool :=
  match s with
  | c :: s' =>
      is_digit c &&
      match drop_digits s' with
      | h :: k :: rest => (h =? CHAR_HYPHEN)%N && forallb is_key_char (k :: rest)
      | _ => false
      end
  | [] => false
  end.

End Regex.

Import Regex.

(** ** Configuration: the module-level constants of [server.js] *)

Record Env := {
  AZURE_STORAGE_ACCOUNT_NAME : option jsstring;
  AZURE_STORAGE_CONTAINER_NAME : option jsstring;
  SAS_TOKEN_EXPIRY_MINUTES : option jsstring
}.

Record Config := {
  storageAccountName : jsstring;
  containerName : jsstring;
  sasExpiryMinutes : number
}.

(** The constants read from the environment; [None] is [process.exit(1)]
    on a missing (or empty) account name. *)
Definition load_config (env : Env) : option Config :=
  match AZURE_STORAGE_ACCOUNT_NAME env with
  | Some (c :: s) =>
      Some {| storageAccountName := c :: s;
              containerName :=
                or_else (AZURE_STORAGE_CONTAINER_NAME env) (lit "uploaded-files");
              sasExpiryMinutes :=
                parseInt (or_else (SAS_TOKEN_EXPIRY_MINUTES env) (lit "60")) |}
  | _ => None
  end.

(** ** The world outside the process

    [clock k] is the [k]-th reading of the system clock; [service] is the
    storage account, which settles each call given the calls made before
    it. *)

Record World := {
  clock : nat -> Z;
  service : list event -> call -> reply
}.

Record State := {
  ticks : nat;
  log : list event
}.

Definition init : State := {| ticks := 0; log := [] |}.

(** ** The monad of the asynchronous functions *)

Definition IO (A : Type) : Type := State -> result A * State.

Definition ret {A} (a : A) : IO A := fun s => (Ok a, s).

Definition throw {A} (e : Error) : IO A := fun s => (Throw e, s).

Definition bind {A B} (m : IO A) (k : A -> IO B) : IO B :=
  fun s =>
    match m s with
    | (Ok a, s') => k a s'
    | (Throw e, s') => (Throw e, s')
    end.

Definition try_catch {A} (m : IO A) (h : Error -> IO A) : IO A :=
  fun s =>
    match m s with
    | (Ok a, s') => (Ok a, s')
    | (Throw e, s') => h e s'
    end.

Definition lift {A} (r : result A) : IO A := fun s => (r, s).

Declare Scope io_scope.
Delimit Scope io_scope with io.
Notation "x <- m ;; k" := (bind m (fun x => k))
  (at level 61, m at next level, right associativity) : io_scope.
Notation "m ;;; k" := (bind m (fun _ => k))
  (at level 61, right associativity) : io_scope.
Open Scope io_scope.

(** ** Requests and responses *)

(** [req.file] as multer's memory storage leaves it. *)
Record File := {
  originalname : jsstring;
  mimetype : jsstring;
  size : N;
  buffer : Buffer
}.

Record UploadBody := {
  success : bool;
  message_ : jsstring;
  fileName : jsstring;
  blobName : jsstring;
  sasUrl : SasUrl;
  expiresAt : iso_string;
  expiresInMinutes : number
}.

Record ErrorBody := {
  error : jsstring;
  details : option jsstring
}.

Record HealthBody := {
  status : jsstring;
  storageAccount : jsstring;
  container : jsstring;
  health_sasExpiryMinutes : number
}.

Inductive json :=
| UploadJson (b : UploadBody)
| ErrorJson (b : ErrorBody)
| HealthJson (b : HealthBody).

Record response := {
  statusCode : Z;
  body : json
}.

(** [res.json(b)] and [res.status(c).json(b)]. *)
Definition res_json (b : json) : response := {| statusCode := 200; body := b |}.
Definition res_status_json (c : Z) (b : json) : response :=
  {| statusCode := c; body := b |}.

(** ** multer

    [upload.single('file')] on a multipart request that carries at most
    one file, in the field [file]. multer works on the file events of
    busboy, its parser: a [Part] is such an event, and its [filename] is
    the name as busboy reports it (see [Busboy] below for how that name
    comes from the one the client sent). A part without a file name is
    skipped; a file longer than [limits.fileSize] is reported to Express
    through [next(err)]; otherwise the file is buffered in memory. *)

Record Part := {
  filename : jsstring;
  part_mimetype : jsstring;
  content : Buffer
}.

Definition Request := option Part.

Record MulterOptions := {
  limits_fileSize : N
}.

Inductive middleware_outcome :=
| Next (file : option File)
| NextError (err : Error).

Definition single (opts : MulterOptions) (req : Request) : middleware_outcome :=
  match req with
  | None => Next None
  | Some p =>
      match filename p with
      | [] => Next None
      | _ :: _ =>
          if (limits_fileSize opts <? buf_length (content p))%N then
            NextError {| message := lit "File too large" |}
          else
            Next (Some {| originalname := filename p;
                          mimetype := part_mimetype p;
                          size := buf_length (content p);
                          buffer := content p |})
      end
  end.

(** [const upload = multer({ storage: ..., limits: { fileSize: 100 * 1024 * 1024 } })] *)
Definition upload : MulterOptions :=
  {| limits_fileSize := 100 * 1024 * 1024 |}.

(** ** busboy: from the request on the wire to multer's file event

    What the client sends for the file is the value of the [filename]
    parameter of the part's [Content-Disposition] header, a run of bytes,
    with the declared type and the bytes of the file. busboy reads each
    byte of the name as one character (latin1) and, as multer does not
    ask it to preserve paths, keeps the base name only. *)

Module Busboy.

Record FormFile := {
  sent_filename : list Byte.byte;
  sent_type : jsstring;
  sent_bytes : Buffer
}.

Definition decodeLatin1 (bytes : list Byte.byte) : jsstring :=
  List.map Byte.to_N bytes.

Definition CHAR_BACKSLASH : N := 92.

(** The loop of busboy's [basename], from the last code unit down: the
    code units met before the first slash or backslash, last one first. *)
Fixpoint after_last_separator (rpath : jsstring) : jsstring :=
  match rpath with
  | [] => []
  | c :: rest =>
      if (c =? CHAR_FORWARD_SLASH)%N || (c =? CHAR_BACKSLASH)%N then []
      else c :: after_last_separator rest
  end.

Definition basename (path : jsstring) : jsstring :=
  let base := List.rev (after_last_separator (List.rev path)) in
  if jsstring_eqb base (lit "..") || jsstring_eqb base (lit ".") then []
  else base.

Definition file_event (x : FormFile) : Part :=
  {| filename := basename (decodeLatin1 (sent_filename x));
     part_mimetype := sent_type x;
     content := sent_bytes x |}.

Definition parse (form : option FormFile) : Request :=
  option_map file_event form.

End Busboy.

(** ** server.js *)

(** The class negated in [/[^a-zA-Z0-9.-]/g]. *)
Definition is_name_char (c : N) : bool :=
  is_lower c || is_upper c || is_digit c
  || (c =? CHAR_DOT)%N || (c =? CHAR_HYPHEN)%N.

(** [originalFileName.replace(/[^a-zA-Z0-9.-]/g, '_')] *)
Definition sanitize (originalFileName : jsstring) : jsstring :=
  replace_outside is_name_char CHAR_UNDERSCORE originalFileName.

(** [`${timestamp}-${sanitizedFileName}`] *)
Definition blob_name (timestamp : Z) (sanitizedFileName : jsstring) : jsstring :=
  Number_toString timestamp ++ lit "-" ++ sanitizedFileName.

Definition contentTypes : list (jsstring * jsstring) :=
  [ (lit ".pdf", lit "application/pdf");
    (lit ".doc", lit "application/msword");
    (lit ".docx",
     lit "application/vnd.openxmlformats-officedocument.wordprocessingml.document");
    (lit ".xls", lit "application/vnd.ms-excel");
    (lit ".xlsx",
     lit "application/vnd.openxmlformats-officedocument.spreadsheetml.sheet");
    (lit ".ppt", lit "application/vnd.ms-powerpoint");
    (lit ".pptx",
     lit "application/vnd.openxmlformats-officedocument.presentationml.presentation");
    (lit ".txt", lit "text/plain");
    (lit ".jpg", lit "image/jpeg");
    (lit ".jpeg", lit "image/jpeg");
    (lit ".png", lit "image/png");
    (lit ".gif", lit "image/gif");
    (lit ".zip", lit "application/zip");
    (lit ".rar", lit "application/x-rar-compressed") ].

(** [table[key]] on an object literal whose keys are all distinct. *)
Fixpoint property (table : list (jsstring * jsstring)) (key : jsstring)
  : option jsstring :=
  match table with
  | [] => None
  | (k, v) :: table' => if jsstring_eqb k key then Some v else property table' key
  end.

Definition getContentType (fileName : jsstring) : jsstring :=
  let ext := toLowerCase (Path.extname fileName) in
  or_else (property contentTypes ext) (lit "application/octet-stream").

Section Server.

Variable cfg : Config.
Variable world : World.

(** [Date.now()], and the time value of [new Date()]. *)
Definition Date_now : IO Z :=
  fun s => (Ok (clock world (ticks s)),
            {| ticks := S (ticks s); log := log s |}).

(** [await] on a call to the storage service: the call and how it settled
    are logged; a rejection is thrown at the [await]. *)
Definition await (c : call) : IO jsstring :=
  fun s =>
    let r := service world (log s) c in
    let s' := {| ticks := ticks s;
                 log := log s ++ [{| ev_call := c; ev_reply := r |}] |} in
    match r with
    | Resolved v => (Ok v, s')
    | Rejected e => (Throw e, s')
    end.

(** [sasExpiryMinutes * 60 * 1000] *)
Definition expiry_ms : number :=
  num_mul (num_mul (sasExpiryMinutes cfg) (Num 60)) (Num 1000).

Definition generateUserDelegationSAS (blobName : jsstring) : IO SasUrl :=
  try_catch
    (t <- Date_now ;;
     let now := new_Date (Num t) in
     let tenMinutesBefore :=
       new_Date (num_sub (valueOf now) (Num (10 * 60 * 1000))) in
     let expiryTime := new_Date (num_add (valueOf now) expiry_ms) in
     (* the two console.log lines that print the bounds *)
     lift (toISOString tenMinutesBefore) ;;;
     lift (toISOString expiryTime) ;;;
     v <- await (GetUserDelegationKey tenMinutesBefore expiryTime) ;;
     let userDelegationKey :=
       {| udk_signedStartsOn := tenMinutesBefore;
          udk_signedExpiresOn := expiryTime;
          udk_value := v |} in
     sasPermissions <- lift (parse (lit "r")) ;;
     let sasOptions :=
       {| sv_containerName := containerName cfg;
          sv_blobName := blobName;
          sv_permissions := sasPermissions;
          sv_protocol := Https;
          sv_startsOn := tenMinutesBefore;
          sv_expiresOn := expiryTime |} in
     let sasToken :=
       SASQueryParameters_toString
         (generateBlobSASQueryParameters sasOptions userDelegationKey
            (storageAccountName cfg)) in
     let blobClient :=
       {| bc_endpoint :=
            lit "https://" ++ storageAccountName cfg
            ++ lit ".blob.core.windows.net";
          bc_containerName := containerName cfg;
          bc_blobName := blobName |} in
     ret {| su_blob := blobClient; su_token := sasToken |})
    (fun error => throw error).

Definition uploadFileToBlob (fileBuffer : Buffer) (originalFileName : jsstring)
  : IO jsstring :=
  try_catch
    (timestamp <- Date_now ;;
     let sanitizedFileName := sanitize originalFileName in
     let blobName := blob_name timestamp sanitizedFileName in
     await (CreateIfNotExists (containerName cfg)) ;;;
     let contentType := getContentType originalFileName in
     await (Upload (containerName cfg) blobName fileBuffer
              (buf_length fileBuffer) contentType) ;;;
     ret blobName)
    (fun error => throw error).

(** [app.get('/health', ...)] *)
Definition health : IO response :=
  ret (res_json (HealthJson
    {| status := lit "healthy";
       storageAccount := storageAccountName cfg;
       container := containerName cfg;
       health_sasExpiryMinutes := sasExpiryMinutes cfg |})).

(** The handler of [app.post('/upload', ...)], given [req.file]. *)
Definition upload_handler (file : option File) : IO response :=
  try_catch
    (match file with
     | None =>
         ret (res_status_json 400 (ErrorJson
           {| error := lit "No file uploaded. Please select a file.";
              details := None |}))
     | Some f =>
         blobName <- uploadFileToBlob (buffer f) (originalname f) ;;
         sasUrl <- generateUserDelegationSAS blobName ;;
         t <- Date_now ;;
         let expiresAt := new_Date (num_add (Num t) expiry_ms) in
         iso <- lift (toISOString expiresAt) ;;
         ret (res_json (UploadJson
           {| success := true;
              message_ := lit "File uploaded successfully!";
              fileName := originalname f;
              blobName := blobName;
              sasUrl := sasUrl;
              expiresAt := iso;
              expiresInMinutes := sasExpiryMinutes cfg |}))
     end)
    (fun error =>
       ret (res_status_json 500 (ErrorJson
         {| error := lit "Failed to upload file. Please try again.";
            details := Some (message error) |}))).

(** The error-handling middleware at the end of the chain. *)
Definition error_middleware (err : Error) : IO response :=
  ret (res_status_json 500 (ErrorJson
    {| error := lit "An unexpected error occurred";
       details := Some (message err) |})).

(** [POST /upload]: multer, then the handler, or the error middleware
    when multer calls [next(err)]. *)
Definition post_upload (req : Request) : IO response :=
  match single upload req with
  | Next file => upload_handler file
  | NextError err => error_middleware err
  end.

End Server.

(** [POST /upload] from the form the client sent. *)
Definition POST_upload (cfg : Config) (world : World)
    (form : option Busboy.FormFile) : IO response :=
  post_upload cfg world (Busboy.parse form).

(** What a run added to the log of service calls. *)
Definition calls_during {A} (m : IO A) (s : State) : list event :=
  skipn (List.length (log s)) (log (snd (m s))).

Definition is_write (c : call) : bool :=
  match c with Upload _ _ _ _ _ => true | _ => false end.

Definition is_delete (c : call) : bool :=
  match c with DeleteBlob _ _ => true | _ => false end.

Definition is_grant_request (c : call) : bool :=
  match c with GetUserDelegationKey _ _ => true | _ => false end.

Definition acknowledged (e : event) : bool :=
  match ev_reply e with Resolved _ => true | Rejected _ => false end.

(** A successful upload: status 200 with the upload body. *)
Definition upload_success (r : response) : option UploadBody :=
  match body r with
  | UploadJson b => if statusCode r =? 200 then Some b else None
  | _ => None
  end.

(** *** Sample worlds and requests *)

Definition sample_cfg : Config :=
  {| storageAccountName := lit "sharesafely";
     containerName := lit "uploaded-files";
     sasExpiryMinutes := Num 60 |}.

(** A service that accepts every call, under a clock that advances by a
    quarter of a second between readings. *)
Definition steady_world : World :=
  {| clock := fun k => 1700000000000 + 250 * Z.of_nat k;
     service := fun _ c =>
       match c with
       | Upload _ _ _ _ _ => Resolved (lit "req-1")
       | GetUserDelegationKey _ _ => Resolved (lit "key-1")
       | _ => Resolved []
       end |}.

(** The same, with a credential authority that refuses. *)
Definition no_grant_world : World :=
  {| clock := clock steady_world;
     service := fun h c =>
       match c with
       | GetUserDelegationKey _ _ =>
           Rejected {| message := lit "AuthorizationPermissionMismatch" |}
       | _ => service steady_world h c
       end |}.

Definition bytes (n : N) : Buffer := {| buf_length := n; buf_byte := fun _ => 0%N |}.

Definition sample_file (name : string) (n : N) : File :=
  {| originalname := lit name; mimetype := lit "application/octet-stream";
     size := n; buffer := bytes n |}.

Definition sample_form (name : string) (n : N) : Busboy.FormFile :=
  {| Busboy.sent_filename := list_byte_of_string name;
     Busboy.sent_type := lit "application/octet-stream";
     Busboy.sent_bytes := bytes n |}.

Definition sample_part (name : string) (n : N) : Part :=
  {| filename := lit name; part_mimetype := lit "application/octet-stream";
     content := bytes n |}.

(** ** One run of the upload handler, step by step

    The values the handler computes on a request that carries the file
    [f], started in state [s], named after the variables of the source. *)

Section Run.

Variable cfg : Config.
Variable world : World.
Variable f : File.
Variable s : State.

(** [uploadFileToBlob]: the first clock reading, and the key. *)
Definition timestamp : Z := clock world (ticks s).

Definition key : jsstring := blob_name timestamp (sanitize (originalname f)).

Definition container_call : call := CreateIfNotExists (containerName cfg).

Definition container_event : event :=
  {| ev_call := container_call;
     ev_reply := service world (log s) container_call |}.

Definition write_call : call :=
  Upload (containerName cfg) key (buffer f) (buf_length (buffer f))
    (getContentType (originalname f)).

Definition write_event : event :=
  {| ev_call := write_call;
     ev_reply := service world (log s ++ [container_event]) write_call |}.

(** [generateUserDelegationSAS]: the second clock reading, and the window. *)
Definition now : Z := clock world (S (ticks s)).

Definition tenMinutesBefore : Date :=
  new_Date (num_sub (valueOf (new_Date (Num now))) (Num (10 * 60 * 1000))).

Definition expiryTime : Date :=
  new_Date (num_add (valueOf (new_Date (Num now))) (expiry_ms cfg)).

Definition grant_call : call := GetUserDelegationKey tenMinutesBefore expiryTime.

Definition grant_event : event :=
  {| ev_call := grant_call;
     ev_reply :=
       service world (log s ++ [container_event; write_event]) grant_call |}.

(** The handler: the third clock reading, for display. *)
Definition display_now : Z := clock world (S (S (ticks s))).

Definition display_expiry : Date :=
  new_Date (num_add (Num display_now) (expiry_ms cfg)).

Definition failed (e : Error) : response :=
  res_status_json 500 (ErrorJson
    {| error := lit "Failed to upload file. Please try again.";
       details := Some (message e) |}).

Definition invalid_time : Error := {| message := lit "Invalid time value" |}.

Definition read_only : BlobSASPermissions :=
  {| read := true; add := false; create := false; write := false;
     delete := false; deleteVersion := false; tag := false; move := false;
     execute := false; setImmutabilityPolicy := false;
     permanentDelete := false |}.

Definition granted (v : jsstring) (iso : iso_string) : UploadBody :=
  {| success := true;
     message_ := lit "File uploaded successfully!";
     fileName := originalname f;
     blobName := key;
     sasUrl :=
       {| su_blob :=
            {| bc_endpoint :=
                 lit "https://" ++ storageAccountName cfg
                 ++ lit ".blob.core.windows.net";
               bc_containerName := containerName cfg;
               bc_blobName := key |};
          su_token :=
            {| sas_values :=
                 {| sv_containerName := containerName cfg;
                    sv_blobName := key;
                    sv_permissions := read_only;
                    sv_protocol := Https;
                    sv_startsOn := truncate_to_seconds tenMinutesBefore;
                    sv_expiresOn := truncate_to_seconds expiryTime |};
               sas_key :=
                 {| udk_signedStartsOn := truncate_to_seconds tenMinutesBefore;
                    udk_signedExpiresOn := truncate_to_seconds expiryTime;
                    udk_value := v |};
               sas_accountName := storageAccountName cfg |} |};
     expiresAt := iso;
     expiresInMinutes := sasExpiryMinutes cfg |}.

(** The ways a run on a present file can go: the response, the calls made
    to the service in order, and the number of clock readings taken. *)
Inductive handled : response -> list event -> nat -> Prop :=
| container_rejected e :
    ev_reply container_event = Rejected e ->
    handled (failed e) [container_event] 1
| write_rejected e :
    acknowledged container_event = true ->
    ev_reply write_event = Rejected e ->
    handled (failed e) [container_event; write_event] 1
| window_invalid :
    acknowledged container_event = true ->
    acknowledged write_event = true ->
    tenMinutesBefore = None \/ expiryTime = None ->
    handled (failed invalid_time) [container_event; write_event] 2
| grant_rejected e :
    acknowledged container_event = true ->
    acknowledged write_event = true ->
    tenMinutesBefore <> None -> expiryTime <> None ->
    ev_reply grant_event = Rejected e ->
    handled (failed e) [container_event; write_event; grant_event] 2
| display_invalid v :
    acknowledged container_event = true ->
    acknowledged write_event = true ->
    tenMinutesBefore <> None -> expiryTime <> None ->
    ev_reply grant_event = Resolved v ->
    display_expiry = None ->
    handled (failed invalid_time) [container_event; write_event; grant_event] 3
| completed v t :
    acknowledged container_event = true ->
    acknowledged write_event = true ->
    tenMinutesBefore <> None -> expiryTime <> None ->
    ev_reply grant_event = Resolved v ->
    display_expiry = Some t ->
    handled (res_json (UploadJson (granted v (ISO t))))
      [container_event; write_event; grant_event] 3.

End Run.

(** * Properties *)

(** ** Running the two asynchronous helpers *)

Lemma uploadFileToBlob_run cfg w f s :
  uploadFileToBlob cfg w (buffer f) (originalname f) s =
  let s1 := {| ticks := S (ticks s); log := log s ++ [container_event cfg w s] |} in
  let s2 := {| ticks := S (ticks s);
               log := log s ++ [container_event cfg w s; write_event cfg w f s] |} in
  match ev_reply (container_event cfg w s) with
  | Rejected e => (Throw e, s1)
  | Resolved _ =>
      match ev_reply (write_event cfg w f s) with
      | Rejected e => (Throw e, s2)
      | Resolved _ => (Ok (key w f s), s2)
      end
  end.
Proof.
  unfold uploadFileToBlob, try_catch, bind, ret, throw, await, Date_now.
  cbn [ticks log ev_reply container_event write_event].
  fold (timestamp w s). fold (key w f s). fold (container_call cfg).
  fold (write_call cfg w f s). fold (container_event cfg w s).
  destruct (service w (log s) (container_call cfg)) as [v1|e1]; cbn [ticks log].
  - fold (write_event cfg w f s).
    replace ((log s ++ [container_event cfg w s]) ++ [write_event cfg w f s])
      with (log s ++ [container_event cfg w s; write_event cfg w f s])
      by (rewrite <- app_assoc; reflexivity).
    destruct (service w (log s ++ [container_event cfg w s]) (write_call cfg w f s));
      reflexivity.
  - reflexivity.
Qed.

Lemma generateUserDelegationSAS_run cfg w k s :
  generateUserDelegationSAS cfg w k s =
  let t := clock w (ticks s) in
  let starts := new_Date (num_sub (valueOf (new_Date (Num t))) (Num (10 * 60 * 1000))) in
  let expires := new_Date (num_add (valueOf (new_Date (Num t))) (expiry_ms cfg)) in
  let g := {| ev_call := GetUserDelegationKey starts expires;
              ev_reply := service w (log s) (GetUserDelegationKey starts expires) |} in
  match starts, expires with
  | Some _, Some _ =>
      let s' := {| ticks := S (ticks s); log := log s ++ [g] |} in
      match ev_reply g with
      | Resolved v =>
          (Ok {| su_blob :=
                   {| bc_endpoint :=
                        lit "https://" ++ storageAccountName cfg
                        ++ lit ".blob.core.windows.net";
                      bc_containerName := containerName cfg;
                      bc_blobName := k |};
                 su_token :=
                   {| sas_values :=
                        {| sv_containerName := containerName cfg;
                           sv_blobName := k;
                           sv_permissions := read_only;
                           sv_protocol := Https;
                           sv_startsOn := truncate_to_seconds starts;
                           sv_expiresOn := truncate_to_seconds expires |};
                      sas_key :=
                        {| udk_signedStartsOn := truncate_to_seconds starts;
                           udk_signedExpiresOn := truncate_to_seconds expires;
                           udk_value := v |};
                      sas_accountName := storageAccountName cfg |} |}, s')
      | Rejected e => (Throw e, s')
      end
  | _, _ => (Throw invalid_time, {| ticks := S (ticks s); log := log s |})
  end.
Proof.
  unfold generateUserDelegationSAS, try_catch, bind, ret, throw, lift, await, Date_now.
  cbn [ticks log ev_reply].
  set (starts := new_Date (num_sub _ _)).
  set (expires := new_Date (num_add _ _)).
  destruct starts as [t0|]; [|reflexivity].
  destruct expires as [t1|]; [|reflexivity].
  cbn [toISOString].
  destruct (service w (log s) (GetUserDelegationKey (Some t0) (Some t1)));
    reflexivity.
Qed.

Lemma upload_handler_handled cfg w f s :
  exists r evs n,
    upload_handler cfg w (Some f) s
      = (Ok r, {| ticks := n + ticks s; log := log s ++ evs |})
    /\ handled cfg w f s r evs n.
Proof.
  unfold upload_handler, try_catch, bind.
  rewrite uploadFileToBlob_run. cbv zeta.
  destruct (ev_reply (container_event cfg w s)) as [v1|e1] eqn:E1.
  2:{ eexists _, _, 1%nat. split; [reflexivity|]. now apply container_rejected. }
  assert (A1 : acknowledged (container_event cfg w s) = true)
    by (unfold acknowledged; now rewrite E1).
  destruct (ev_reply (write_event cfg w f s)) as [v2|e2] eqn:E2.
  2:{ eexists _, _, 1%nat. split; [reflexivity|]. now apply write_rejected. }
  assert (A2 : acknowledged (write_event cfg w f s) = true)
    by (unfold acknowledged; now rewrite E2).
  rewrite generateUserDelegationSAS_run. cbv zeta. cbn [ticks log].
  fold (now w s). fold (tenMinutesBefore w s). fold (expiryTime cfg w s).
  fold (grant_call cfg w s). fold (grant_event cfg w f s).
  destruct (tenMinutesBefore w s) as [t0|] eqn:T0.
  2:{ eexists _, _, 2%nat. split; [reflexivity|]. apply window_invalid; auto. }
  destruct (expiryTime cfg w s) as [t1|] eqn:T1.
  2:{ eexists _, _, 2%nat. split; [reflexivity|]. apply window_invalid; auto. }
  replace ((log s ++ [container_event cfg w s; write_event cfg w f s])
             ++ [grant_event cfg w f s])
    with (log s ++ [container_event cfg w s; write_event cfg w f s;
                    grant_event cfg w f s])
    by (rewrite <- app_assoc; reflexivity).
  assert (N0 : tenMinutesBefore w s <> None) by congruence.
  assert (N1 : expiryTime cfg w s <> None) by congruence.
  destruct (ev_reply (grant_event cfg w f s)) as [v3|e3] eqn:E3.
  2:{ eexists _, _, 2%nat. split; [reflexivity|]. now apply grant_rejected. }
  unfold Date_now, lift, ret. cbn [ticks log].
  fold (display_now w s). fold (display_expiry cfg w s).
  destruct (display_expiry cfg w s) as [t|] eqn:D.
  - eexists _, _, 3%nat. split; [reflexivity|].
    rewrite <- T0, <- T1. now apply completed.
  - eexists _, _, 3%nat. split; [reflexivity|]. eapply display_invalid; eauto.
Qed.

Lemma skipn_length_app {A} (l l' : list A) : skipn (List.length l) (l ++ l') = l'.
Proof. induction l as [|a l IH]; [reflexivity | exact IH]. Qed.

Lemma calls_during_eq {A} (m : IO A) s r n evs :
  m s = (r, {| ticks := n; log := log s ++ evs |}) -> calls_during m s = evs.
Proof.
  intros E. unfold calls_during. rewrite E. cbn [snd log].
  apply skipn_length_app.
Qed.

Lemma calls_during_same {A} (m : IO A) s r :
  m s = (r, s) -> calls_during m s = [].
Proof.
  intros E. unfold calls_during. rewrite E. cbn [snd].
  rewrite <- (app_nil_r (log s)) at 2. apply skipn_length_app.
Qed.

(** A request reaches the handler with a file exactly when multer
    accepted one; only then can the response be the upload body. *)
Lemma post_upload_success cfg w req s r s' b :
  post_upload cfg w req s = (Ok r, s') ->
  upload_success r = Some b ->
  exists f, single upload req = Next (Some f)
            /\ upload_handler cfg w (Some f) s = (Ok r, s').
Proof.
  unfold post_upload. intros E S.
  destruct (single upload req) as [[f|]|err].
  - now exists f.
  - unfold upload_handler, try_catch, ret in E. injection E as <- <-.
    discriminate S.
  - unfold error_middleware, ret in E. injection E as <- <-. discriminate S.
Qed.

(** Only the last way of [handled] answers with the upload body. *)
Lemma handled_success cfg w f s r evs n b :
  handled cfg w f s r evs n ->
  upload_success r = Some b ->
  exists v t,
    b = granted cfg w f s v (ISO t)
    /\ evs = [container_event cfg w s; write_event cfg w f s;
              grant_event cfg w f s]
    /\ acknowledged (write_event cfg w f s) = true
    /\ ev_reply (grant_event cfg w f s) = Resolved v
    /\ tenMinutesBefore w s <> None
    /\ expiryTime cfg w s <> None
    /\ display_expiry cfg w s = Some t.
Proof.
  intros H S. destruct H; try discriminate S.
  injection S as <-. exists v, t. repeat split; assumption.
Qed.

(** ** Dates *)

Lemma new_Date_Some v t : new_Date v = Some t -> v = Num t.
Proof.
  destruct v as [z| |n]; cbn; try discriminate.
  destruct (Z.abs z <=? MAX_TIME); [|discriminate].
  now intros [= ->].
Qed.

Lemma tenMinutesBefore_Some w s :
  tenMinutesBefore w s <> None ->
  tenMinutesBefore w s = Some (now w s - 10 * 60 * 1000).
Proof.
  intros H. destruct (tenMinutesBefore w s) as [t|] eqn:E; [|congruence].
  unfold tenMinutesBefore in E. apply new_Date_Some in E.
  destruct (new_Date (Num (now w s))) as [x|] eqn:X; [|discriminate E].
  apply new_Date_Some in X. injection X as ->.
  cbn in E. injection E as <-. reflexivity.
Qed.

Lemma expiryTime_Some cfg w s :
  expiryTime cfg w s <> None ->
  exists minutes,
    sasExpiryMinutes cfg = Num minutes
    /\ expiryTime cfg w s = Some (now w s + minutes * 60 * 1000).
Proof.
  intros H. destruct (expiryTime cfg w s) as [t|] eqn:E; [|congruence].
  unfold expiryTime in E. apply new_Date_Some in E.
  destruct (new_Date (Num (now w s))) as [x|] eqn:X; [|discriminate E].
  apply new_Date_Some in X. injection X as ->.
  unfold expiry_ms in E.
  destruct (sasExpiryMinutes cfg) as [m| |n];
    [| discriminate E | cbn in E; discriminate E].
  cbn in E. injection E as <-. now exists m.
Qed.

Lemma display_expiry_Some cfg w s minutes t :
  sasExpiryMinutes cfg = Num minutes ->
  display_expiry cfg w s = Some t ->
  t = display_now w s + minutes * 60 * 1000.
Proof.
  intros M E. unfold display_expiry in E. apply new_Date_Some in E.
  unfold expiry_ms in E. rewrite M in E. cbn in E. now injection E as <-.
Qed.

(** ** Sanitized names and keys *)

Lemma is_name_char_is_key_char c : is_name_char c = true -> is_key_char c = true.
Proof.
  unfold is_name_char, is_key_char.
  destruct (is_lower c), (is_upper c), (is_digit c), (c =? CHAR_DOT)%N,
    (c =? CHAR_HYPHEN)%N, (c =? CHAR_UNDERSCORE)%N; cbn; congruence.
Qed.

Lemma sanitize_twice s : sanitize (sanitize s) = sanitize s.
Proof.
  unfold sanitize, replace_outside. rewrite map_map. apply map_ext.
  intros c. destruct (is_name_char c) eqn:E; [now rewrite E | reflexivity].
Qed.

Lemma sanitize_length s : List.length (sanitize s) = List.length s.
Proof. unfold sanitize, replace_outside. apply length_map. Qed.

Lemma sanitize_key_chars s : forallb is_key_char (sanitize s) = true.
Proof.
  unfold sanitize, replace_outside. induction s as [|c s IH]; [reflexivity|].
  cbn [List.map forallb]. rewrite IH, andb_true_r.
  destruct (is_name_char c) eqn:E; [now apply is_name_char_is_key_char|].
  reflexivity.
Qed.

Lemma uint_units_digits u : forallb is_digit (uint_units u) = true.
Proof. induction u; cbn [uint_units forallb]; try rewrite IHu; reflexivity. Qed.

Lemma uint_units_nonempty u : u <> Nil -> uint_units u <> [].
Proof. destruct u; cbn; congruence. Qed.

Lemma Number_toString_digits t :
  0 <= t -> forallb is_digit (Number_toString t) = true.
Proof.
  destruct t as [|p|p]; intros H; [reflexivity | apply uint_units_digits | lia].
Qed.

Lemma Number_toString_nonempty t : Number_toString t <> [].
Proof.
  destruct t as [|p|p]; cbn; try discriminate.
  apply uint_units_nonempty, Unsigned.to_uint_nonnil.
Qed.

Lemma blob_name_length t name :
  (List.length name < List.length (blob_name t name))%nat.
Proof.
  unfold blob_name. rewrite !length_app. cbn. lia.
Qed.

(** ** The key pattern *)

Lemma matches_plus_class p s :
  s <> [] -> forallb p s = true -> matches (Plus (Class p)) s.
Proof.
  induction s as [|c s IH]; [congruence|]. intros _ H.
  cbn [forallb] in H. apply andb_true_iff in H as [Hc Hs].
  destruct s as [|d s].
  - apply MPlusOne. now apply MClass.
  - change (c :: d :: s) with ([c] ++ d :: s).
    apply MPlusMore; [now apply MClass | apply IH; [discriminate | exact Hs]].
Qed.

Lemma matches_plus_class_inv p s :
  matches (Plus (Class p)) s -> s <> [] /\ forallb p s = true.
Proof.
  intros H. remember (Plus (Class p)) as r eqn:R.
  induction H as [| |r s H _|r s1 s2 H1 _ _ IH]; try discriminate R;
    injection R as ->.
  - inversion H as [? c Hc | | |]; subst.
    split; [discriminate|]. cbn. now rewrite Hc.
  - inversion H1 as [? c Hc | | |]; subst. destruct (IH eq_refl) as [_ F].
    split; [discriminate|]. cbn. now rewrite Hc, F.
Qed.

Lemma drop_digits_hyphen ds rest :
  forallb is_digit ds = true ->
  drop_digits (ds ++ CHAR_HYPHEN :: rest) = CHAR_HYPHEN :: rest.
Proof.
  induction ds as [|d ds IH]; intros H; [reflexivity|].
  cbn [forallb] in H. apply andb_true_iff in H as [Hd Hs].
  change (drop_digits ((d :: ds) ++ CHAR_HYPHEN :: rest))
    with (if is_digit d then drop_digits (ds ++ CHAR_HYPHEN :: rest)
          else d :: ds ++ CHAR_HYPHEN :: rest).
  rewrite Hd. now apply IH.
Qed.

Lemma key_pattern_b_complete s : matches key_pattern s -> key_pattern_b s = true.
Proof.
  unfold key_pattern. intros H.
  inversion H as [| ? ? ds tl Hd Ht | |]; subst.
  inversion Ht as [| ? ? h rest Hh Hr | |]; subst.
  inversion Hh as [? c Hc | | |]; subst.
  apply N.eqb_eq in Hc. subst c.
  apply matches_plus_class_inv in Hd as [Dne Dall].
  apply matches_plus_class_inv in Hr as [Rne Rall].
  destruct ds as [|d ds]; [congruence|].
  cbn [forallb] in Dall. apply andb_true_iff in Dall as [D1 D2].
  destruct rest as [|k rest]; [congruence|].
  change (key_pattern_b ((d :: ds) ++ [CHAR_HYPHEN] ++ k :: rest))
    with (is_digit d &&
          match drop_digits (ds ++ CHAR_HYPHEN :: k :: rest) with
          | h :: k' :: rest' =>
              (h =? CHAR_HYPHEN)%N && forallb is_key_char (k' :: rest')
          | _ => false
          end).
  rewrite D1, drop_digits_hyphen by exact D2.
  rewrite N.eqb_refl. exact Rall.
Qed.

Lemma blob_name_matches t name :
  0 <= t -> name <> [] -> forallb is_key_char name = true ->
  matches key_pattern (blob_name t name).
Proof.
  intros Ht Hn Hk. unfold blob_name, key_pattern.
  apply MSeq.
  - apply matches_plus_class;
      [apply Number_toString_nonempty | now apply Number_toString_digits].
  - apply MSeq; [now apply MClass | now apply matches_plus_class].
Qed.

(** ** Sample runs *)

Example extname_report : Path.extname (lit "q3/report.final.PDF") = lit ".PDF".
Proof. reflexivity. Qed.

Example extname_dotfile : Path.extname (lit ".bashrc") = [].
Proof. reflexivity. Qed.

Example getContentType_pdf :
  getContentType (lit "q3/report.final.PDF") = lit "application/pdf".
Proof. reflexivity. Qed.

Example parseInt_60 : parseInt (lit "60") = Num 60.
Proof. reflexivity. Qed.

Example parseInt_prefix : parseInt (lit "  -15 minutes") = Num (-15).
Proof. reflexivity. Qed.

Example parseInt_junk : parseInt (lit "soon") = NaN.
Proof. reflexivity. Qed.

Example sanitize_spaces : sanitize (lit "my file(1).txt") = lit "my_file_1_.txt".
Proof. reflexivity. Qed.

Example steady_upload_calls :
  List.map ev_call
    (calls_during
       (post_upload sample_cfg steady_world (Some (sample_part "my file(1).txt" 5)))
       init)
  = [ CreateIfNotExists (lit "uploaded-files");
      Upload (lit "uploaded-files") (lit "1700000000000-my_file_1_.txt")
        (bytes 5) 5 (lit "text/plain");
      GetUserDelegationKey (Some 1699999400250) (Some 1700003600250) ].
Proof. reflexivity. Qed.

(** * The claims *)

(** ** C1: a request without a payload *)

(** C1, as the code has it. A request that carries no file (no [file]
    part, or a part without a file name) is answered with status 400 and
    the state is unchanged, so no call at all reaches the storage
    service. The guard tests presence only: a file that is present,
    whatever its length, is never answered with 400 and the storage
    service is called. *)
Theorem absent_file_is_invalid_request cfg w s mime data f :
  let no_file :=
    res_status_json 400 (ErrorJson
      {| error := lit "No file uploaded. Please select a file.";
         details := None |}) in
  upload_handler cfg w None s = (Ok no_file, s)
  /\ post_upload cfg w None s = (Ok no_file, s)
  /\ post_upload cfg w
       (Some {| filename := []; part_mimetype := mime; content := data |}) s
     = (Ok no_file, s)
  /\ calls_during (post_upload cfg w None) s = []
  /\ exists r s',
       upload_handler cfg w (Some f) s = (Ok r, s')
       /\ statusCode r <> 400
       /\ calls_during (upload_handler cfg w (Some f)) s <> [].
Proof.
  cbv zeta. repeat split; try reflexivity.
  - now apply calls_during_same with (r := Ok (res_status_json 400 (ErrorJson
      {| error := lit "No file uploaded. Please select a file.";
         details := None |}))).
  - destruct (upload_handler_handled cfg w f s) as (r & evs & n & E & H).
    exists r, {| ticks := n + ticks s; log := log s ++ evs |}.
    split; [exact E|].
    rewrite (calls_during_eq _ _ _ _ _ E).
    destruct H; (split; [cbn; lia | discriminate]).
Qed.

(** C1, counterexample. An upload of a named file of zero bytes is not
    rejected: it is written to the store and answered with status 200. *)
Lemma empty_file_is_written :
  let p := sample_part "empty.txt" 0 in
  let run := post_upload sample_cfg steady_world (Some p) in
  buf_length (content p) = 0%N
  /\ exists r s',
       run init = (Ok r, s')
       /\ statusCode r = 200
       /\ statusCode r <> 400
       /\ List.map ev_call (firstn 2 (calls_during run init))
          = [ CreateIfNotExists (lit "uploaded-files");
              Upload (lit "uploaded-files") (lit "1700000000000-empty.txt")
                (bytes 0) 0 (lit "text/plain") ]
       /\ forallb acknowledged (calls_during run init) = true.
Proof.
  cbv zeta. split; [reflexivity|].
  eexists _, _. split; [vm_compute; reflexivity|].
  repeat split; try reflexivity. cbn. lia.
Qed.

(** ** C2: a payload over the ceiling *)

(** C2, as the code has it. A named file longer than 100 MiB is refused
    by multer and the request ends in the error-handling middleware: the
    answer is the generic status 500 with multer's message as detail
    (there is no 413), the state is unchanged and no call reaches the
    storage service. *)
Theorem oversize_file_is_unexpected_error cfg w p s :
  (0 < List.length (filename p))%nat ->
  (100 * 1024 * 1024 < buf_length (content p))%N ->
  post_upload cfg w (Some p) s
  = (Ok (res_status_json 500 (ErrorJson
       {| error := lit "An unexpected error occurred";
          details := Some (lit "File too large") |})), s)
  /\ calls_during (post_upload cfg w (Some p)) s = [].
Proof.
  intros Hname Hsize.
  assert (E : post_upload cfg w (Some p) s
              = (Ok (res_status_json 500 (ErrorJson
                   {| error := lit "An unexpected error occurred";
                      details := Some (lit "File too large") |})), s)).
  { unfold post_upload, single.
    destruct (filename p) as [|c name]; [cbn in Hname; lia|].
    change (limits_fileSize upload) with (100 * 1024 * 1024)%N.
    destruct (N.ltb_spec (100 * 1024 * 1024) (buf_length (content p))); [|lia].
    reflexivity. }
  split; [exact E | exact (calls_during_same _ _ _ E)].
Qed.

Lemma oversize_file_is_unexpected_error_witness :
  post_upload sample_cfg steady_world
    (Some (sample_part "big.bin" (100 * 1024 * 1024 + 1))) init
  = (Ok (res_status_json 500 (ErrorJson
       {| error := lit "An unexpected error occurred";
          details := Some (lit "File too large") |})), init)
  /\ calls_during
       (post_upload sample_cfg steady_world
          (Some (sample_part "big.bin" (100 * 1024 * 1024 + 1)))) init = [].
Proof.
  apply (oversize_file_is_unexpected_error sample_cfg steady_world
           (sample_part "big.bin" (100 * 1024 * 1024 + 1)) init).
  - simpl. lia.
  - simpl. lia.
Defined.

(** C2, counterexample. A file one byte over the ceiling is answered
    with status 500, not 413. *)
Lemma oversize_file_answered_500 :
  let p := sample_part "big.bin" (100 * 1024 * 1024 + 1) in
  (limits_fileSize upload < buf_length (content p))%N
  /\ exists r,
       post_upload sample_cfg steady_world (Some p) init = (Ok r, init)
       /\ statusCode r = 500
       /\ statusCode r <> 413.
Proof.
  cbv zeta. split; [reflexivity|].
  eexists. split; [vm_compute; reflexivity|].
  split; [reflexivity | cbn; lia].
Qed.

(** ** C9: the health check *)

(** C9. [GET /health] answers with status 200 and the configured account
    name, container name and expiry, in every state; the handler does
    not depend on the world, leaves the state as it was and so makes no
    call to the storage service. *)
Theorem health_reports_configuration cfg s :
  health cfg s
  = (Ok {| statusCode := 200;
           body := HealthJson
             {| status := lit "healthy";
                storageAccount := storageAccountName cfg;
                container := containerName cfg;
                health_sasExpiryMinutes := sasExpiryMinutes cfg |} |}, s)
  /\ calls_during (health cfg) s = [].
Proof.
  split; [reflexivity|].
  now apply calls_during_same with (r := fst (health cfg s)).
Qed.

(** ** Requests that reach the handler *)

Lemma single_accepts req f :
  single upload req = Next (Some f) ->
  exists p,
    req = Some p /\ originalname f = filename p /\ buffer f = content p.
Proof.
  unfold single. destruct req as [p|]; [|discriminate].
  destruct (filename p) as [|c name] eqn:E; [discriminate|].
  destruct (limits_fileSize upload <? buf_length (content p))%N; [discriminate|].
  intros [= <-]. exists p. cbn. now rewrite E.
Qed.

(** Every request is answered: the handler catches what its helpers
    throw. *)
Lemma post_upload_answers cfg w req s :
  exists r evs n,
    post_upload cfg w req s
    = (Ok r, {| ticks := n + ticks s; log := log s ++ evs |}).
Proof.
  unfold post_upload. destruct (single upload req) as [[f|]|err].
  - destruct (upload_handler_handled cfg w f s) as (r & evs & n & E & _).
    now exists r, evs, n.
  - eexists _, [], 0%nat. rewrite app_nil_r. destruct s. reflexivity.
  - eexists _, [], 0%nat. rewrite app_nil_r. destruct s. reflexivity.
Qed.

(** The calls of a request that made any: those of the handler on the
    file multer accepted. *)
Lemma post_upload_calls cfg w req s r s' :
  post_upload cfg w req s = (Ok r, s') ->
  calls_during (post_upload cfg w req) s <> [] ->
  exists f evs n,
    single upload req = Next (Some f)
    /\ calls_during (post_upload cfg w req) s = evs
    /\ handled cfg w f s r evs n.
Proof.
  intros E C. unfold post_upload in *.
  destruct (single upload req) as [[f|]|err].
  - destruct (upload_handler_handled cfg w f s) as (r0 & evs & n & E0 & H).
    exists f, evs, n. rewrite (calls_during_eq _ _ _ _ _ E0).
    rewrite E in E0. injection E0 as -> _. auto.
  - exfalso. apply C. now apply calls_during_same with (r := fst (upload_handler cfg w None s)).
  - exfalso. apply C. now apply calls_during_same with (r := fst (error_middleware err s)).
Qed.

(** Where a request for the delegation key can stand in a list of calls
    that starts with two calls of another kind and has at most one more. *)
Lemma grant_request_is_third pre g post (e1 e2 : event) :
  is_grant_request (ev_call g) = true ->
  is_grant_request (ev_call e1) = false ->
  is_grant_request (ev_call e2) = false ->
  forall l,
    pre ++ g :: post = e1 :: e2 :: l ->
    (l = [] -> False)
    /\ (forall e3, l = [e3] -> pre = [e1; e2] /\ g = e3 /\ post = []).
Proof.
  intros G G1 G2 l X.
  destruct pre as [|p1 pre]; cbn in X.
  { injection X as -> _. congruence. }
  destruct pre as [|p2 pre]; cbn in X.
  { injection X as _ -> _. congruence. }
  injection X as -> -> X. split.
  - intros ->. now destruct pre.
  - intros e3 ->. destruct pre as [|p3 pre]; cbn in X.
    + now injection X as -> ->.
    + injection X as _ X. now destruct pre.
Qed.

Ltac grant_is_last K Hl :=
  destruct (proj2 (K _ (eq_sym Hl)) _ eq_refl) as (-> & -> & ->);
  repeat split; try assumption.

(** ** C6: the grant comes after the acknowledged write *)

(** C6. Every request is answered. Whenever a request for the delegation
    key appears among the calls of a request, the calls before it are
    exactly the creation of the container and the write of the file under
    its key, both acknowledged, and nothing follows it; when the upload
    succeeds the grant is signed for that same key; when the request for
    the delegation key is rejected the answer is status 500 with the
    rejection's message. More generally, a request whose write was
    acknowledged and that does not end in the upload answer ends in
    status 500. No run contains a delete call. *)
Theorem grant_follows_acknowledged_write :
  (forall cfg w req s,
     exists r s',
       post_upload cfg w req s = (Ok r, s')
       /\ forallb (fun e => negb (is_delete (ev_call e)))
            (calls_during (post_upload cfg w req) s) = true)
  /\
  (forall cfg w req s r s' pre g post,
     post_upload cfg w req s = (Ok r, s') ->
     calls_during (post_upload cfg w req) s = pre ++ g :: post ->
     is_grant_request (ev_call g) = true ->
     exists f,
       single upload req = Next (Some f)
       /\ pre = [container_event cfg w s; write_event cfg w f s]
       /\ post = []
       /\ ev_call (write_event cfg w f s)
          = Upload (containerName cfg) (key w f s) (buffer f)
              (buf_length (buffer f)) (getContentType (originalname f))
       /\ acknowledged (write_event cfg w f s) = true
       /\ (forall b, upload_success r = Some b ->
             sv_blobName (sas_values (su_token (sasUrl b))) = key w f s)
       /\ (forall e, ev_reply g = Rejected e ->
             r = res_status_json 500 (ErrorJson
                   {| error := lit "Failed to upload file. Please try again.";
                      details := Some (message e) |})))
  /\
  (forall cfg w req s r s' wr,
     post_upload cfg w req s = (Ok r, s') ->
     In wr (calls_during (post_upload cfg w req) s) ->
     is_write (ev_call wr) = true ->
     acknowledged wr = true ->
     upload_success r = None ->
     exists e,
       r = res_status_json 500 (ErrorJson
             {| error := lit "Failed to upload file. Please try again.";
                details := Some (message e) |})).
Proof.
  split; [|split].
  - intros cfg w req s.
    destruct (post_upload_answers cfg w req s) as (r & evs & n & E).
    exists r, {| ticks := n + ticks s; log := log s ++ evs |}.
    split; [exact E|].
    destruct (calls_during (post_upload cfg w req) s) as [|e0 l] eqn:C;
      [reflexivity|].
    destruct (post_upload_calls _ _ _ _ _ _ E) as (f & evs' & n' & _ & C' & H);
      [congruence|].
    rewrite <- C, C'. destruct H; reflexivity.
  - intros cfg w req s r s' pre g post E C G.
    destruct (post_upload_calls _ _ _ _ _ _ E) as (f & evs & n & A & C' & H).
    { rewrite C. now destruct pre. }
    exists f. rewrite C in C'. subst evs.
    pose proof (grant_request_is_third pre g post
                  (container_event cfg w s) (write_event cfg w f s)
                  G eq_refl eq_refl) as K.
    inversion H as [e Hc Hr Hl | e A1 Hw Hr Hl | A1 A2 T Hr Hl
                    | e A1 A2 T0 T1 Hg Hr Hl | v A1 A2 T0 T1 Hg D Hr Hl
                    | v t A1 A2 T0 T1 Hg D Hr Hl].
    + exfalso. destruct pre as [|p1 pre]; cbn in Hl.
      * injection Hl as Hl _. rewrite <- Hl in G. discriminate G.
      * injection Hl as _ Hl. now destruct pre.
    + exfalso. now apply (K _ (eq_sym Hl)).
    + exfalso. now apply (K _ (eq_sym Hl)).
    + grant_is_last K Hl.
      * intros b S. discriminate S.
      * intros e' R. rewrite Hg in R. now injection R as ->.
    + grant_is_last K Hl.
      * intros b S. discriminate S.
      * intros e' R. rewrite Hg in R. discriminate R.
    + grant_is_last K Hl.
      * intros b S. now injection S as <-.
      * intros e' R. rewrite Hg in R. discriminate R.
  - intros cfg w req s r s' wr E I W A S.
    destruct (post_upload_calls _ _ _ _ _ _ E) as (f & evs & n & _ & C & H).
    { intros X. rewrite X in I. destruct I. }
    destruct H; try (eexists; reflexivity). discriminate S.
Qed.

Lemma grant_follows_acknowledged_write_witness :
  let req := Some (sample_part "a.txt" 5) in
  let f := sample_file "a.txt" 5 in
  let denied := {| message := lit "AuthorizationPermissionMismatch" |} in
  let e1 := container_event sample_cfg no_grant_world init in
  let e2 := write_event sample_cfg no_grant_world f init in
  let e3 := grant_event sample_cfg no_grant_world f init in
  post_upload sample_cfg no_grant_world req init
  = (Ok (failed denied), {| ticks := 2; log := [e1; e2; e3] |})
  /\ acknowledged e2 = true
  /\ forall e,
       ev_reply e3 = Rejected e ->
       failed denied
       = res_status_json 500 (ErrorJson
           {| error := lit "Failed to upload file. Please try again.";
              details := Some (message e) |}).
Proof.
  cbv zeta.
  assert (E : post_upload sample_cfg no_grant_world
                (Some (sample_part "a.txt" 5)) init
              = (Ok (failed {| message := lit "AuthorizationPermissionMismatch" |}),
                 {| ticks := 2;
                    log := [container_event sample_cfg no_grant_world init;
                            write_event sample_cfg no_grant_world
                              (sample_file "a.txt" 5) init;
                            grant_event sample_cfg no_grant_world
                              (sample_file "a.txt" 5) init] |}))
    by (vm_compute; reflexivity).
  split; [exact E|].
  destruct (proj1 (proj2 grant_follows_acknowledged_write) _ _ _ _ _ _
              [container_event sample_cfg no_grant_world init;
               write_event sample_cfg no_grant_world (sample_file "a.txt" 5) init]
              (grant_event sample_cfg no_grant_world (sample_file "a.txt" 5) init)
              [] E)
    as (f' & A & _ & _ & _ & Ack & _ & R).
  - vm_compute. reflexivity.
  - reflexivity.
  - vm_compute in A. injection A as <-. split; [exact Ack | exact R].
Defined.

(** ** Whole seconds *)

Lemma truncate_shift t k :
  1000 * ((t + k * 60 * 1000) / 1000) = 1000 * (t / 1000) + k * 60 * 1000.
Proof.
  replace (t + k * 60 * 1000) with (t + (k * 60) * 1000) by lia.
  rewrite Z.div_add by lia. lia.
Qed.

Lemma truncated_start w s :
  tenMinutesBefore w s <> None ->
  truncate_to_seconds (tenMinutesBefore w s)
  = Some (1000 * (now w s / 1000) - 10 * 60 * 1000).
Proof.
  intros H. rewrite (tenMinutesBefore_Some _ _ H). cbn [truncate_to_seconds].
  f_equal. pose proof (truncate_shift (now w s) (-10)) as T.
  replace (now w s - 10 * 60 * 1000) with (now w s + -10 * 60 * 1000) by lia.
  lia.
Qed.

Lemma truncated_expiry cfg w s :
  expiryTime cfg w s <> None ->
  exists minutes,
    sasExpiryMinutes cfg = Num minutes
    /\ truncate_to_seconds (expiryTime cfg w s)
       = Some (1000 * (now w s / 1000) + minutes * 60 * 1000).
Proof.
  intros H. destruct (expiryTime_Some _ _ _ H) as (minutes & M & X).
  exists minutes. split; [exact M|]. rewrite X. cbn [truncate_to_seconds].
  f_equal. apply truncate_shift.
Qed.

(** ** C3: the validity window and the expiry shown to the caller *)

(** C3, as the code has it. With no [SAS_TOKEN_EXPIRY_MINUTES] in the
    environment the window is 60 minutes. On every successful upload the
    grant written into the returned URL starts exactly 10 minutes before,
    and expires exactly the configured number of minutes after, the whole
    second of the clock reading taken when the grant is generated (the
    second reading of the request; the token carries no milliseconds);
    the expiry returned to the caller is computed afresh, to the
    millisecond, from the reading taken after the grant was issued (the
    third reading) plus the configured number of minutes. *)
Theorem grant_window_and_displayed_expiry :
  (forall env cfg,
     load_config env = Some cfg ->
     SAS_TOKEN_EXPIRY_MINUTES env = None ->
     sasExpiryMinutes cfg = Num 60)
  /\
  (forall cfg w req s r s' b,
     post_upload cfg w req s = (Ok r, s') ->
     upload_success r = Some b ->
     let granted_at := clock w (S (ticks s)) in
     let answered_at := clock w (S (S (ticks s))) in
     let whole_second := 1000 * (granted_at / 1000) in
     let values := sas_values (su_token (sasUrl b)) in
     exists minutes,
       sasExpiryMinutes cfg = Num minutes
       /\ sv_startsOn values = Some (whole_second - 10 * 60 * 1000)
       /\ sv_expiresOn values = Some (whole_second + minutes * 60 * 1000)
       /\ granted_at - 999 <= whole_second <= granted_at
       /\ expiresAt b = ISO (answered_at + minutes * 60 * 1000)
       /\ expiresInMinutes b = Num minutes).
Proof.
  split.
  - intros env cfg L E. unfold load_config in L.
    destruct (AZURE_STORAGE_ACCOUNT_NAME env) as [[|c a]|]; try discriminate L.
    injection L as <-. cbn [sasExpiryMinutes]. rewrite E. reflexivity.
  - intros cfg w req s r s' b P S. cbv zeta.
    destruct (post_upload_success _ _ _ _ _ _ _ P S) as (f & _ & E).
    destruct (upload_handler_handled cfg w f s) as (r0 & evs & n & E0 & H).
    rewrite E in E0. injection E0 as <- _.
    destruct (handled_success _ _ _ _ _ _ _ _ H S)
      as (v & t & -> & _ & _ & _ & T0 & T1 & D).
    destruct (truncated_expiry _ _ _ T1) as (minutes & M & X).
    exists minutes.
    cbn [granted sasUrl su_token sas_values sv_startsOn sv_expiresOn
         expiresAt expiresInMinutes].
    rewrite (truncated_start _ _ T0), X.
    rewrite (display_expiry_Some _ _ _ _ _ M D).
    fold (now w s). pose proof (Z.mod_pos_bound (now w s) 1000 ltac:(lia)).
    pose proof (Z.div_mod (now w s) 1000 ltac:(lia)).
    repeat split; try assumption; try reflexivity; lia.
Qed.

Lemma grant_window_and_displayed_expiry_witness :
  exists r s' b,
    post_upload sample_cfg steady_world (Some (sample_part "a.txt" 5)) init
      = (Ok r, s')
    /\ upload_success r = Some b
    /\ exists minutes,
         sasExpiryMinutes sample_cfg = Num minutes
         /\ sv_startsOn (sas_values (su_token (sasUrl b)))
            = Some (1000 * (clock steady_world 1 / 1000) - 10 * 60 * 1000)
         /\ sv_expiresOn (sas_values (su_token (sasUrl b)))
            = Some (1000 * (clock steady_world 1 / 1000) + minutes * 60 * 1000)
         /\ clock steady_world 1 - 999 <= 1000 * (clock steady_world 1 / 1000)
            <= clock steady_world 1
         /\ expiresAt b = ISO (clock steady_world 2 + minutes * 60 * 1000)
         /\ expiresInMinutes b = Num minutes.
Proof.
  eexists _, _, _. split; [vm_compute; reflexivity|].
  split; [reflexivity|].
  eapply (proj2 grant_window_and_displayed_expiry sample_cfg steady_world
            (Some (sample_part "a.txt" 5)) init).
  - vm_compute. reflexivity.
  - reflexivity.
Defined.

(** C3, counterexample. Under a clock that advances by 250 ms between
    readings, the grant is generated at 1700000000250: the URL's grant
    starts at 1699999400000 and expires at 1700003600000, while the
    expiry returned to the caller is 1700003600500. The grant does not
    expire 60 minutes after the reading at which it was generated, and
    no single clock reading accounts for the window and the returned
    expiry together. *)
Lemma displayed_expiry_differs_from_grant_expiry :
  exists r s' b,
    post_upload sample_cfg steady_world (Some (sample_part "a.txt" 5)) init
      = (Ok r, s')
    /\ upload_success r = Some b
    /\ clock steady_world 1 = 1700000000250
    /\ sv_startsOn (sas_values (su_token (sasUrl b))) = Some 1699999400000
    /\ sv_expiresOn (sas_values (su_token (sasUrl b))) = Some 1700003600000
    /\ sv_expiresOn (sas_values (su_token (sasUrl b)))
       <> Some (clock steady_world 1 + 60 * 60 * 1000)
    /\ expiresAt b = ISO 1700003600500
    /\ ~ exists t,
           sv_startsOn (sas_values (su_token (sasUrl b)))
             = Some (t - 10 * 60 * 1000)
           /\ sv_expiresOn (sas_values (su_token (sasUrl b)))
              = Some (t + 60 * 60 * 1000)
           /\ expiresAt b = ISO (t + 60 * 60 * 1000).
Proof.
  eexists _, _, _. split; [vm_compute; reflexivity|].
  split; [reflexivity|]. repeat split.
  - cbn. discriminate.
  - intros (t & _ & E1 & E2). cbn in E1, E2.
    injection E1 as E1. injection E2 as E2. lia.
Qed.

(** ** C7: what the grant allows *)

(** C7. On every successful upload the signed values of the returned URL
    carry the read permission and no other (the permission string is
    [r]), over HTTPS only, for the container and the key under which the
    file was just written and acknowledged, which is also the blob the
    URL points to and the [blobName] of the answer; the grant runs from
    10 minutes before to the configured number of minutes after the
    whole second of the clock reading taken at its generation, so that
    it spans exactly the configured minutes plus ten. *)
Theorem grant_is_read_only_on_the_uploaded_object cfg w req s r s' b :
  post_upload cfg w req s = (Ok r, s') ->
  upload_success r = Some b ->
  let url := sasUrl b in
  let values := sas_values (su_token url) in
  let whole_second := 1000 * (clock w (S (ticks s)) / 1000) in
  sv_permissions values
  = {| read := true; add := false; create := false; write := false;
       delete := false; deleteVersion := false; tag := false; move := false;
       execute := false; setImmutabilityPolicy := false;
       permanentDelete := false |}
  /\ permissions_toString (sv_permissions values) = lit "r"
  /\ sv_protocol values = Https
  /\ sv_containerName values = containerName cfg
  /\ sv_blobName values = blobName b
  /\ bc_containerName (su_blob url) = containerName cfg
  /\ bc_blobName (su_blob url) = blobName b
  /\ (exists wr data len mime,
        In wr (calls_during (post_upload cfg w req) s)
        /\ acknowledged wr = true
        /\ ev_call wr = Upload (containerName cfg) (blobName b) data len mime)
  /\ exists minutes starts expires,
       sasExpiryMinutes cfg = Num minutes
       /\ sv_startsOn values = Some starts
       /\ sv_expiresOn values = Some expires
       /\ starts = whole_second - 10 * 60 * 1000
       /\ expires = whole_second + minutes * 60 * 1000
       /\ expires - starts = (minutes + 10) * 60 * 1000.
Proof.
  intros P S. cbv zeta.
  destruct (post_upload_success _ _ _ _ _ _ _ P S) as (f & A & E).
  destruct (upload_handler_handled cfg w f s) as (r0 & evs & n & E0 & H).
  assert (C : calls_during (post_upload cfg w req) s = evs).
  { unfold post_upload. rewrite A. exact (calls_during_eq _ _ _ _ _ E0). }
  rewrite E in E0. injection E0 as <- _.
  destruct (handled_success _ _ _ _ _ _ _ _ H S)
    as (v & t & -> & -> & Ack & _ & T0 & T1 & _).
  destruct (truncated_expiry _ _ _ T1) as (minutes & M & X).
  cbn [granted sasUrl blobName su_token su_blob sas_values sv_permissions
       sv_protocol sv_containerName sv_blobName sv_startsOn sv_expiresOn
       bc_containerName bc_blobName].
  repeat split.
  - exists (write_event cfg w f s), (buffer f), (buf_length (buffer f)),
      (getContentType (originalname f)).
    rewrite C. split; [right; now left|]. split; [exact Ack | reflexivity].
  - rewrite (truncated_start _ _ T0), X. fold (now w s).
    eexists minutes, _, _. repeat split; try eassumption; lia.
Qed.

Lemma grant_is_read_only_on_the_uploaded_object_witness :
  exists b,
    permissions_toString (sv_permissions (sas_values (su_token (sasUrl b))))
      = lit "r"
    /\ sv_blobName (sas_values (su_token (sasUrl b)))
       = lit "1700000000000-my_file_1_.txt"
    /\ blobName b = lit "1700000000000-my_file_1_.txt"
    /\ sv_expiresOn (sas_values (su_token (sasUrl b))) = Some 1700003600000.
Proof.
  eexists.
  destruct (grant_is_read_only_on_the_uploaded_object sample_cfg steady_world
              (Some (sample_part "my file(1).txt" 5)) init _ _ _
              ltac:(vm_compute; reflexivity) ltac:(reflexivity))
    as (_ & R & _ & _ & K & _).
  split; [exact R|]. split; [exact K|]. split; reflexivity.
Defined.

(** ** Writes of a request *)

(** A write among the calls of a request is the write of the handler on
    the file multer accepted. *)
Lemma post_upload_write cfg w req s e c k data len mime :
  In e (calls_during (post_upload cfg w req) s) ->
  ev_call e = Upload c k data len mime ->
  exists f,
    single upload req = Next (Some f)
    /\ originalname f <> []
    /\ e = write_event cfg w f s.
Proof.
  intros I U.
  destruct (post_upload_answers cfg w req s) as (r & evs0 & n0 & E).
  destruct (post_upload_calls _ _ _ _ _ _ E) as (f & evs & n & A & C & H).
  { intros X. rewrite X in I. destruct I. }
  rewrite C in I. exists f. split; [exact A|]. split.
  - destruct (single_accepts _ _ A) as (p & -> & Hn & _).
    unfold single in A. rewrite Hn.
    destruct (filename p); [discriminate A | discriminate].
  - destruct H; cbn [In] in I;
      repeat (destruct I as [<-|I]; [try discriminate U; try reflexivity|]);
      destruct I.
Qed.

(** ** C4: sanitization and the shape of the key *)

(** C4. Sanitization is defined on every string, keeps its length and is
    idempotent. The key derived from a non-empty file name matches
    [^[0-9]+-[A-Za-z0-9._-]+$], and so does the key of every write that
    [POST /upload] sends, whatever file name the client submitted (the
    handler never sees an empty one): the clock reading printed in front
    being that of a clock that is not set before 1970. *)
Theorem sanitize_idempotent_key_matches :
  (forall name,
     sanitize (sanitize name) = sanitize name
     /\ List.length (sanitize name) = List.length name)
  /\
  (forall t name,
     0 <= t ->
     (0 < List.length name)%nat ->
     matches key_pattern (blob_name t (sanitize name)))
  /\
  (forall cfg w form s e c k data len mime,
     0 <= clock w (ticks s) ->
     In e (calls_during (POST_upload cfg w form) s) ->
     ev_call e = Upload c k data len mime ->
     matches key_pattern k).
Proof.
  split; [|split].
  - intros name. split; [apply sanitize_twice | apply sanitize_length].
  - intros t name Ht Hn. apply blob_name_matches.
    + exact Ht.
    + intros E. apply (f_equal (@List.length N)) in E.
      rewrite sanitize_length in E. cbn in E. lia.
    + apply sanitize_key_chars.
  - intros cfg w form s e c k data len mime T I U. unfold POST_upload in I.
    destruct (post_upload_write _ _ _ _ _ _ _ _ _ _ I U) as (f & _ & Ne & ->).
    cbn in U. injection U as _ <- _ _ _. unfold key.
    apply blob_name_matches; [exact T | | apply sanitize_key_chars].
    intros X. apply Ne. apply (f_equal (@List.length N)) in X.
    rewrite sanitize_length in X. now destruct (originalname f).
Qed.

Lemma sanitize_idempotent_key_matches_witness :
  matches key_pattern
    (blob_name 1700000000000 (sanitize (lit "my file(1).txt")))
  /\ matches key_pattern (lit "1700000000000-my_file_1_.PDF").
Proof.
  split.
  - apply (proj1 (proj2 sanitize_idempotent_key_matches) 1700000000000
             (lit "my file(1).txt")).
    + lia.
    + simpl. lia.
  - apply (proj2 (proj2 sanitize_idempotent_key_matches)
             sample_cfg steady_world
             (Some (sample_form "C:\docs\my file(1).PDF" 5)) init
             (write_event sample_cfg steady_world
                (sample_file "my file(1).PDF" 5) init)
             (lit "uploaded-files") (lit "1700000000000-my_file_1_.PDF")
             (bytes 5) 5%N (lit "application/pdf")).
    + vm_compute. discriminate.
    + vm_compute. right. now left.
    + reflexivity.
Defined.

(** The key that [uploadFileToBlob] itself derives from the empty name,
    which the handler never passes to it, ends in the hyphen. *)
Example empty_name_key :
  fst (uploadFileToBlob sample_cfg steady_world (bytes 5) [] init)
    = Ok (lit "1700000000000-").
Proof. reflexivity. Qed.

(** ** C5: how the key is derived *)

Lemma split_at_first (h : N) l l' a b :
  ~ In h l -> ~ In h l' -> l ++ h :: a = l' ++ h :: b -> l = l' /\ a = b.
Proof.
  revert l'. induction l as [|x l IH]; intros [|x' l'] H H' E; cbn in E.
  - now injection E as <-.
  - injection E as -> _. exfalso. apply H'. now left.
  - injection E as -> _. exfalso. apply H. now left.
  - injection E as -> E. destruct (IH l') as [-> ->]; auto;
      intros I; [apply H | apply H']; now right.
Qed.

Lemma is_name_char_spec c :
  is_name_char c = true
  <-> (97 <= c <= 122 \/ 65 <= c <= 90 \/ 48 <= c <= 57
       \/ c = 46 \/ c = 45)%N.
Proof.
  unfold is_name_char, is_lower, is_upper, is_digit, in_range,
    CHAR_DOT, CHAR_HYPHEN.
  rewrite !orb_true_iff, !andb_true_iff, !N.leb_le, !N.eqb_eq. tauto.
Qed.

Lemma sanitize_pointwise name :
  Forall2
    (fun c c' =>
       ((97 <= c <= 122 \/ 65 <= c <= 90 \/ 48 <= c <= 57
         \/ c = 46 \/ c = 45)%N -> c' = c)
       /\ (~ (97 <= c <= 122 \/ 65 <= c <= 90 \/ 48 <= c <= 57
              \/ c = 46 \/ c = 45)%N -> c' = 95%N))
    name (sanitize name).
Proof.
  unfold sanitize, replace_outside.
  induction name as [|c name IH]; cbn [List.map]; constructor; [|exact IH].
  destruct (is_name_char c) eqn:E; split; intros H; try reflexivity.
  - apply is_name_char_spec in E. contradiction.
  - apply is_name_char_spec in H. congruence.
Qed.

Lemma decimal_value_acc u p :
  fold_left (fun acc d => 10 * acc + (Z.of_N d - 48)) (uint_units u) (Zpos p)
  = Zpos (Pos.of_uint_acc u p).
Proof.
  revert p. induction u; intros p; [reflexivity|..];
    cbn [uint_units fold_left Pos.of_uint_acc];
    match goal with
    | |- fold_left _ _ ?x = Zpos (Pos.of_uint_acc _ ?y) =>
        replace x with (Zpos y) by lia
    end; apply IHu.
Qed.

Lemma decimal_value u :
  fold_left (fun acc d => 10 * acc + (Z.of_N d - 48)) (uint_units u) 0
  = Z.of_N (Pos.of_uint u).
Proof.
  induction u; [reflexivity|..]; cbn [uint_units fold_left Pos.of_uint];
    [exact IHu | apply decimal_value_acc ..].
Qed.

Lemma Number_toString_value t :
  0 <= t ->
  fold_left (fun acc d => 10 * acc + (Z.of_N d - 48)) (Number_toString t) 0
  = t.
Proof.
  destruct t as [|p|p]; intros H; [reflexivity | | lia].
  cbn [Number_toString]. rewrite decimal_value.
  now rewrite Unsigned.of_to.
Qed.

Lemma to_uint_no_leading_zero p u : Pos.to_uint p <> D0 u.
Proof.
  intros E.
  assert (U : unorm (Pos.to_uint p) = Pos.to_uint p).
  { rewrite <- (DecimalPos.Unsigned.to_of (Pos.to_uint p)).
    now rewrite DecimalPos.Unsigned.of_to. }
  rewrite E, DecimalFacts.unorm_D0 in U.
  destruct (uint_eq_dec (nzhead u) Nil) as [Z0|NZ].
  - apply DecimalFacts.unorm_0 in Z0. rewrite Z0 in U.
    apply (Unsigned.to_uint_nonzero p). now rewrite E, <- U.
  - rewrite (DecimalFacts.unorm_nzhead _ NZ) in U.
    now apply (DecimalFacts.nzhead_nonzero u u).
Qed.

Lemma Number_toString_no_leading_zero t rest :
  0 <= t -> Number_toString t = 48%N :: rest -> rest = [].
Proof.
  destruct t as [|p|p]; intros H E; [now injection E | | lia].
  cbn [Number_toString] in E.
  destruct (Pos.to_uint p) as [|u|u|u|u|u|u|u|u|u|u] eqn:T;
    try discriminate E.
  now apply to_uint_no_leading_zero in T.
Qed.

(** C5. The key under which the file is written is the clock reading in
    decimal (its digits, without a leading zero), a hyphen, and the
    original name in which every code unit outside [[A-Za-z0-9.-]] has
    become an underscore and every other is kept. [uploadFileToBlob]
    creates the container if needed and then writes once under that key:
    nothing asks the store about the key beforehand, and a rejected
    write is thrown, not repeated. Over the whole handler the calls made
    are an initial segment of: create the container, write under the
    key, request the delegation key. *)
Theorem store_key_derivation cfg w f s :
  0 <= clock w (ticks s) ->
  exists digits name',
    let k := digits ++ [45%N] ++ name' in
    let c1 := CreateIfNotExists (containerName cfg) in
    let e1 := {| ev_call := c1; ev_reply := service w (log s) c1 |} in
    let c2 :=
      Upload (containerName cfg) k (buffer f) (buf_length (buffer f))
        (getContentType (originalname f)) in
    let e2 := {| ev_call := c2; ev_reply := service w (log s ++ [e1]) c2 |} in
    digits <> []
    /\ (forall d, In d digits -> (48 <= d <= 57)%N)
    /\ (forall rest, digits = 48%N :: rest -> rest = [])
    /\ fold_left (fun acc d => 10 * acc + (Z.of_N d - 48)) digits 0
       = clock w (ticks s)
    /\ Forall2
         (fun c c' =>
            ((97 <= c <= 122 \/ 65 <= c <= 90 \/ 48 <= c <= 57
              \/ c = 46 \/ c = 45)%N -> c' = c)
            /\ (~ (97 <= c <= 122 \/ 65 <= c <= 90 \/ 48 <= c <= 57
                   \/ c = 46 \/ c = 45)%N -> c' = 95%N))
         (originalname f) name'
    /\ uploadFileToBlob cfg w (buffer f) (originalname f) s
       = match ev_reply e1 with
         | Rejected e =>
             (Throw e, {| ticks := S (ticks s); log := log s ++ [e1] |})
         | Resolved _ =>
             match ev_reply e2 with
             | Rejected e =>
                 (Throw e,
                  {| ticks := S (ticks s); log := log s ++ [e1; e2] |})
             | Resolved _ =>
                 (Ok k, {| ticks := S (ticks s); log := log s ++ [e1; e2] |})
             end
         end
    /\ exists n,
         calls_during (upload_handler cfg w (Some f)) s
         = firstn n [e1; e2; grant_event cfg w f s].
Proof.
  intros T.
  exists (Number_toString (clock w (ticks s))), (sanitize (originalname f)).
  cbv zeta. split; [apply Number_toString_nonempty|]. split.
  { intros d I. pose proof (Number_toString_digits _ T) as D.
    rewrite forallb_forall in D. specialize (D _ I).
    unfold is_digit, in_range in D. apply andb_true_iff in D as [L U].
    apply N.leb_le in L. apply N.leb_le in U. lia. }
  split; [intros rest; now apply Number_toString_no_leading_zero|].
  split; [now apply Number_toString_value|].
  split; [apply sanitize_pointwise|].
  split; [apply uploadFileToBlob_run|].
  destruct (upload_handler_handled cfg w f s) as (r & evs & n & E & H).
  rewrite (calls_during_eq _ _ _ _ _ E).
  destruct H; [exists 1%nat | exists 2%nat | exists 2%nat
               | exists 3%nat | exists 3%nat | exists 3%nat]; reflexivity.
Qed.

Lemma store_key_derivation_witness :
  exists digits name',
    fst (uploadFileToBlob sample_cfg steady_world (bytes 5)
           (lit "my file(1).txt") init)
    = Ok (digits ++ [45%N] ++ name')
    /\ digits = lit "1700000000000"
    /\ name' = lit "my_file_1_.txt"
    /\ fold_left (fun acc d => 10 * acc + (Z.of_N d - 48)) digits 0
       = 1700000000000.
Proof.
  destruct (store_key_derivation sample_cfg steady_world
              (sample_file "my file(1).txt" 5) init
              ltac:(vm_compute; discriminate))
    as (digits & name' & _ & D & _ & V & _ & R & _).
  exists digits, name'.
  vm_compute in R. injection R as R.
  assert (Dd : (lit "1700000000000" ++ [45%N] ++ lit "my_file_1_.txt"
                = digits ++ [45%N] ++ name')%list) by exact R.
  destruct (split_at_first 45%N (lit "1700000000000") digits
              (lit "my_file_1_.txt") name') as [<- <-].
  - vm_compute. intuition discriminate.
  - intros I. specialize (D _ I). lia.
  - exact Dd.
  - repeat split.
Defined.

(** ** C8: the content type *)




(** ** C10: the two names in the answer *)

Lemma after_last_separator_all path :
  (forall c, In c path ->
             c <> CHAR_FORWARD_SLASH /\ c <> Busboy.CHAR_BACKSLASH) ->
  Busboy.after_last_separator path = path.
Proof.
  induction path as [|c path IH]; intros H; [reflexivity|].
  destruct (H c (or_introl eq_refl)) as [H1 H2].
  cbn [Busboy.after_last_separator].
  rewrite (proj2 (N.eqb_neq _ _) H1), (proj2 (N.eqb_neq _ _) H2).
  cbn [orb]. f_equal. apply IH. intros d I. apply H. now right.
Qed.

(** C10, as the code has it. On every successful upload [fileName] is
    [req.file.originalname]: what follows the last slash or backslash of
    the file name the client submitted, each byte of that name read as
    one character. It is the submitted name unchanged when that name has
    neither slash nor backslash. [blobName] is the decimal clock reading,
    a hyphen and the sanitized [fileName]; the two fields always
    differ. *)
Theorem answer_names cfg w form s r s' b :
  POST_upload cfg w form s = (Ok r, s') ->
  upload_success r = Some b ->
  exists x,
    let submitted := Busboy.decodeLatin1 (Busboy.sent_filename x) in
    form = Some x
    /\ fileName b
       = List.rev (Busboy.after_last_separator (List.rev submitted))
    /\ fileName b <> []
    /\ ((forall c, In c submitted ->
                   c <> CHAR_FORWARD_SLASH /\ c <> Busboy.CHAR_BACKSLASH) ->
        fileName b = submitted)
    /\ blobName b
       = Number_toString (clock w (ticks s)) ++ lit "-"
         ++ sanitize (fileName b)
    /\ fileName b <> blobName b.
Proof.
  intros P S. unfold POST_upload in P.
  destruct (post_upload_success _ _ _ _ _ _ _ P S) as (f & A & E).
  destruct (single_accepts _ _ A) as (p & Q & Hn & _).
  destruct form as [x|]; [|discriminate Q]. cbn in Q. injection Q as <-.
  destruct (upload_handler_handled cfg w f s) as (r0 & evs & n & E0 & H).
  rewrite E in E0. injection E0 as <- _.
  destruct (handled_success _ _ _ _ _ _ _ _ H S) as (v & t & -> & _).
  exists x. cbv zeta. cbn [granted fileName blobName]. unfold key.
  assert (Ne : originalname f <> []).
  { unfold single in A. cbn [Busboy.parse option_map] in A. rewrite Hn.
    destruct (filename (Busboy.file_event x)); [discriminate A | discriminate]. }
  assert (B : originalname f
              = List.rev (Busboy.after_last_separator
                            (List.rev (Busboy.decodeLatin1
                                         (Busboy.sent_filename x))))).
  { rewrite Hn in *. cbn [Busboy.file_event filename] in *.
    unfold Busboy.basename in *. cbv zeta in *.
    destruct (jsstring_eqb _ (lit "..") || jsstring_eqb _ (lit "."));
      [congruence | reflexivity]. }
  split; [reflexivity|]. split; [exact B|]. split; [exact Ne|]. split.
  - intros Hs. rewrite B, after_last_separator_all, rev_involutive;
      [reflexivity|].
    intros c I. apply Hs. now apply in_rev.
  - split; [reflexivity|].
    intros X. apply (f_equal (@List.length N)) in X.
    pose proof (blob_name_length (timestamp w s) (sanitize (originalname f)))
      as L.
    rewrite sanitize_length in L. unfold blob_name, timestamp in L.
    unfold blob_name, timestamp in X. lia.
Qed.

Lemma answer_names_witness :
  exists b,
    fileName b = lit "my file(1).txt"
    /\ blobName b = lit "1700000000000-my_file_1_.txt"
    /\ fileName b <> blobName b.
Proof.
  destruct (answer_names sample_cfg steady_world
              (Some (sample_form "my file(1).txt" 5)) init _ _ _
              ltac:(vm_compute; reflexivity) ltac:(reflexivity))
    as (x & Q & _ & _ & F & B & D).
  match type of B with blobName ?b = _ => exists b end.
  split; [reflexivity|]. split; [exact B | exact D].
Defined.

(** C10, counterexample. A client that submits the file under the name
    [docs/a.txt] is answered with the [fileName] [a.txt]: the name is
    not returned unchanged. *)
Lemma path_of_submitted_name_is_dropped :
  exists r s' b,
    POST_upload sample_cfg steady_world
      (Some (sample_form "docs/a.txt" 5)) init = (Ok r, s')
    /\ upload_success r = Some b
    /\ Busboy.decodeLatin1 (Busboy.sent_filename (sample_form "docs/a.txt" 5))
       = lit "docs/a.txt"
    /\ fileName b = lit "a.txt"
    /\ fileName b <> lit "docs/a.txt"
    /\ blobName b = lit "1700000000000-a.txt".
Proof.
  eexists _, _, _. split; [vm_compute; reflexivity|].
  split; [reflexivity|]. repeat split. discriminate.
Qed.

(** A name outside ASCII comes back as its bytes, one character each:
    the two bytes of a UTF-8 [é] are two characters of [fileName]. *)
Example bytes_of_submitted_name_are_characters :
  exists r s' b,
    POST_upload sample_cfg steady_world
      (Some {| Busboy.sent_filename :=
                 [Byte.xc3; Byte.xa9; Byte.x2e; Byte.x74; Byte.x78; Byte.x74];
               Busboy.sent_type := lit "text/plain";
               Busboy.sent_bytes := bytes 5 |}) init = (Ok r, s')
    /\ upload_success r = Some b
    /\ fileName b = [195; 169; 46; 116; 120; 116]%N
    /\ blobName b = lit "1700000000000-__.txt".
Proof.
  eexists _, _, _. split; [vm_compute; reflexivity|].
  repeat split.
Qed.

(** * Further properties of [server.js] *)

(** ** Reading the configuration *)

Lemma digit_cases c :
  is_digit c = true ->
  (c = 48 \/ c = 49 \/ c = 50 \/ c = 51 \/ c = 52 \/ c = 53
   \/ c = 54 \/ c = 55 \/ c = 56 \/ c = 57)%N.
Proof.
  unfold is_digit, in_range. intros H.
  apply andb_true_iff in H as [L U].
  apply N.leb_le in L. apply N.leb_le in U. lia.
Qed.

Ltac each_digit D :=
  repeat (destruct D as [->|D]); [..|subst].

Lemma trim_start_digit c s : is_digit c = true -> trim_start (c :: s) = c :: s.
Proof. intros H. apply digit_cases in H. each_digit H; reflexivity. Qed.

(** One step of [parse_digits] on a decimal digit of the source text. *)
Ltac eval_digit :=
  cbn [uint_units parse_digits Pos.of_uint Pos.of_uint_acc];
  match goal with
  | |- context [digit_value 10 ?c] =>
      change (digit_value 10 c) with (Some (c - 48)%N)
  end; cbv beta iota.

Lemma parse_digits_acc u a :
  parse_digits 10 (uint_units u) (Some (Npos a))
  = Some (Npos (Pos.of_uint_acc u a)).
Proof.
  revert a. induction u; intros a; [reflexivity|..]; eval_digit;
    match goal with
    | |- parse_digits _ _ (Some ?x) = Some (Npos (Pos.of_uint_acc _ ?y)) =>
        replace x with (Npos y) by lia
    end; apply IHu.
Qed.

Lemma parse_digits_zero u :
  parse_digits 10 (uint_units u) (Some 0%N) = Some (Pos.of_uint u).
Proof.
  induction u; [reflexivity|..]; eval_digit;
    [exact IHu | apply parse_digits_acc ..].
Qed.

Lemma parse_digits_uint u :
  u <> Nil -> parse_digits 10 (uint_units u) None = Some (Pos.of_uint u).
Proof.
  destruct u; intros H; [congruence|..]; eval_digit;
    [apply parse_digits_zero | apply parse_digits_acc ..].
Qed.

Lemma uint_units_head u c s :
  uint_units u = c :: s -> is_digit c = true /\ exists u', s = uint_units u'.
Proof.
  destruct u; cbn [uint_units]; intros [= <- <-]; split;
    try reflexivity; eexists; reflexivity.
Qed.

(** [parseInt] on a non-empty run of decimal digits, after an optional
    minus sign. *)
Lemma parseInt_digits (neg : bool) u :
  u <> Nil ->
  parseInt ((if neg then [CHAR_HYPHEN] else []) ++ uint_units u)
  = round_to_double
      (if neg then - Z.of_N (Pos.of_uint u) else Z.of_N (Pos.of_uint u)).
Proof.
  intros H. pose proof (parse_digits_uint u H) as P.
  assert (X : (let '(radix, s3) :=
                 match uint_units u with
                 | 48%N :: 120%N :: r | 48%N :: 88%N :: r => (16%N, r)
                 | _ => (10%N, uint_units u)
                 end in
               parse_digits radix s3 None) = Some (Pos.of_uint u)).
  { destruct (uint_units u) as [|c s] eqn:E; [exact P|].
    destruct (uint_units_head _ _ _ E) as [D [u' ->]].
    apply digit_cases in D. each_digit D; try exact P.
    destruct (uint_units u') as [|c2 r] eqn:E'; [exact P|].
    destruct (uint_units_head _ _ _ E') as [D2 _].
    apply digit_cases in D2. each_digit D2; exact P. }
  unfold parseInt. destruct neg.
  - change (trim_start ([CHAR_HYPHEN] ++ uint_units u))
      with (45%N :: uint_units u).
    cbv beta iota. revert X.
    destruct (match uint_units u with
              | 48%N :: 120%N :: r | 48%N :: 88%N :: r => (16%N, r)
              | _ => (10%N, uint_units u)
              end) as [radix s3].
    now intros ->.
  - cbn [app].
    destruct (uint_units u) as [|c s] eqn:E; [destruct u; discriminate|].
    destruct (uint_units_head _ _ _ E) as [D _].
    change ([] ++ c :: s) with (c :: s).
    rewrite (trim_start_digit _ _ D).
    apply digit_cases in D.
    each_digit D; cbv beta iota in X |- *; try (now rewrite X);
      revert X;
      match goal with
      | |- context [match ?m with (_, _) => _ end] => destruct m as [radix s3]
      end; now intros ->.
Qed.

Lemma round_to_double_exact z :
  Z.abs z <= 2 ^ 53 -> round_to_double z = Num z.
Proof.
  intros H. unfold round_to_double. cbv zeta.
  now rewrite (proj2 (Z.leb_le _ _) H).
Qed.

(** Reading back a printed integer: the nearest double. *)
Lemma parseInt_Number_toString z :
  parseInt (Number_toString z) = round_to_double z.
Proof.
  destruct z as [|p|p]; [reflexivity|..].
  - pose proof (parseInt_digits false _ (Unsigned.to_uint_nonnil p)) as Q.
    rewrite Unsigned.of_to in Q. exact Q.
  - pose proof (parseInt_digits true _ (Unsigned.to_uint_nonnil p)) as Q.
    rewrite Unsigned.of_to in Q. exact Q.
Qed.

(** X1. The process starts exactly when an account name is configured;
    the configuration it then runs with has a non-empty account name,
    taken from the environment as it is, and a non-empty container name:
    the environment's whenever that is set and not empty, and
    [uploaded-files] when it is missing or empty. *)
Theorem load_config_starts_iff_account env :
  (load_config env = None
   <-> AZURE_STORAGE_ACCOUNT_NAME env = None
       \/ AZURE_STORAGE_ACCOUNT_NAME env = Some [])
  /\ forall cfg,
       load_config env = Some cfg ->
       AZURE_STORAGE_ACCOUNT_NAME env = Some (storageAccountName cfg)
       /\ storageAccountName cfg <> []
       /\ containerName cfg <> []
       /\ (forall name,
             AZURE_STORAGE_CONTAINER_NAME env = Some name -> name <> [] ->
             containerName cfg = name)
       /\ (AZURE_STORAGE_CONTAINER_NAME env = None
           \/ AZURE_STORAGE_CONTAINER_NAME env = Some [] ->
           containerName cfg = lit "uploaded-files").
Proof.
  unfold load_config.
  destruct (AZURE_STORAGE_ACCOUNT_NAME env) as [[|c a]|].
  - split; [split; [now right | reflexivity] | discriminate].
  - split.
    + split; [discriminate | intros [H|H]; discriminate H].
    + intros cfg [= <-]. cbn.
      split; [reflexivity|]. split; [discriminate|].
      destruct (AZURE_STORAGE_CONTAINER_NAME env) as [[|d k]|]; cbn.
      * split; [discriminate|]. split; [intros name [= <-]; congruence | auto].
      * split; [discriminate|]. split; [now intros name [= <-] |].
        intros [H|H]; discriminate H.
      * split; [discriminate|]. split; [discriminate | auto].
  - split; [split; [now left | reflexivity] | discriminate].
Qed.

Lemma load_config_starts_iff_account_witness :
  exists cfg cfg',
    load_config {| AZURE_STORAGE_ACCOUNT_NAME := Some (lit "sharesafely");
                   AZURE_STORAGE_CONTAINER_NAME := Some (lit "incoming");
                   SAS_TOKEN_EXPIRY_MINUTES := None |} = Some cfg
    /\ containerName cfg = lit "incoming"
    /\ load_config {| AZURE_STORAGE_ACCOUNT_NAME := Some (lit "sharesafely");
                      AZURE_STORAGE_CONTAINER_NAME := Some [];
                      SAS_TOKEN_EXPIRY_MINUTES := None |} = Some cfg'
    /\ containerName cfg' = lit "uploaded-files".
Proof.
  eexists _, _. split; [reflexivity|].
  destruct (proj2 (load_config_starts_iff_account
                     {| AZURE_STORAGE_ACCOUNT_NAME := Some (lit "sharesafely");
                        AZURE_STORAGE_CONTAINER_NAME := Some (lit "incoming");
                        SAS_TOKEN_EXPIRY_MINUTES := None |}) _ eq_refl)
    as (_ & _ & _ & A & _).
  destruct (proj2 (load_config_starts_iff_account
                     {| AZURE_STORAGE_ACCOUNT_NAME := Some (lit "sharesafely");
                        AZURE_STORAGE_CONTAINER_NAME := Some [];
                        SAS_TOKEN_EXPIRY_MINUTES := None |}) _ eq_refl)
    as (_ & _ & _ & _ & B).
  split; [apply A; [reflexivity | vm_compute; discriminate]|].
  split; [reflexivity|]. apply B. now right.
Defined.

(** X2. An expiry written in the environment as a decimal integer of
    magnitude at most 2^53, negative or not, is the expiry the process
    runs with; beyond 2^53 [parseInt] gives the nearest double, which
    need not be the integer written. *)
Theorem configured_expiry_is_read_back env cfg z :
  load_config env = Some cfg ->
  SAS_TOKEN_EXPIRY_MINUTES env = Some (Number_toString z) ->
  (Z.abs z <= 2 ^ 53 -> sasExpiryMinutes cfg = Num z)
  /\ sasExpiryMinutes cfg = round_to_double z.
Proof.
  unfold load_config. intros L E.
  destruct (AZURE_STORAGE_ACCOUNT_NAME env) as [[|c a]|]; try discriminate L.
  injection L as <-. cbn [sasExpiryMinutes]. rewrite E.
  pose proof (Number_toString_nonempty z) as NE.
  destruct (Number_toString z) as [|d ds] eqn:T; [congruence|].
  cbn [or_else]. rewrite <- T, parseInt_Number_toString.
  split; [apply round_to_double_exact | reflexivity].
Qed.

Lemma configured_expiry_is_read_back_witness :
  sasExpiryMinutes
    {| storageAccountName := lit "sharesafely";
       containerName := lit "uploaded-files";
       sasExpiryMinutes := parseInt (lit "1440") |} = Num 1440.
Proof.
  apply (configured_expiry_is_read_back
           {| AZURE_STORAGE_ACCOUNT_NAME := Some (lit "sharesafely");
              AZURE_STORAGE_CONTAINER_NAME := None;
              SAS_TOKEN_EXPIRY_MINUTES := Some (lit "1440") |}).
  - reflexivity.
  - reflexivity.
  - vm_compute. discriminate.
Defined.

Example parseInt_rounds_above_2_53 :
  parseInt (lit "9007199254740993") = Num 9007199254740992
  /\ parseInt (lit "-9007199254740995") = Num (-9007199254740996)
  /\ parseInt (lit "0x20000000000003") = Num 9007199254740996.
Proof. repeat split; vm_compute; reflexivity. Qed.

Example parseInt_overflows :
  parseInt (lit "0x10000000000000000000000000000000000000000000000000000000000000000000000000000000000000000000000000000000000000000000000000000000000000000000000000000000000000000000000000000000000000000000000000000000000000000000000000000000000000000000000000000000000000000") = Infinity false.
Proof. vm_compute. reflexivity. Qed.

(** ** Failures on the way *)

Lemma rejected_is_last (good : list event) x pre e post :
  forallb acknowledged good = true ->
  pre ++ e :: post = good ++ [x] ->
  acknowledged e = false ->
  pre = good /\ e = x /\ post = [].
Proof.
  revert pre. induction good as [|g good IH]; intros pre G X R.
  - destruct pre as [|p pre]; cbn in X.
    + now injection X as -> <-.
    + injection X as _ X. now destruct pre.
  - cbn [forallb] in G. apply andb_true_iff in G as [Gg G].
    destruct pre as [|p pre]; cbn in X.
    + injection X as -> _. congruence.
    + injection X as -> X. destruct (IH _ G X R) as (-> & -> & ->). auto.
Qed.

Lemma rejected_not_among (good : list event) pre e post :
  forallb acknowledged good = true ->
  pre ++ e :: post = good ->
  acknowledged e = true.
Proof.
  intros G <-. rewrite forallb_app in G. cbn in G.
  apply andb_true_iff in G as [_ G]. now apply andb_true_iff in G as [G _].
Qed.

(** X3. The first rejection ends the request: a call that the storage
    service rejects is the last call of its request, every call before
    it was acknowledged, and the answer is status 500 with the
    rejection's message as detail. *)
Theorem first_rejection_ends_request cfg w req s r s' pre e post err :
  post_upload cfg w req s = (Ok r, s') ->
  calls_during (post_upload cfg w req) s = pre ++ e :: post ->
  ev_reply e = Rejected err ->
  post = []
  /\ forallb acknowledged pre = true
  /\ r = res_status_json 500 (ErrorJson
           {| error := lit "Failed to upload file. Please try again.";
              details := Some (message err) |}).
Proof.
  intros E C R.
  destruct (post_upload_calls _ _ _ _ _ _ E) as (f & evs & n & _ & C' & H).
  { rewrite C. now destruct pre. }
  rewrite C in C'. subst evs.
  assert (Re : acknowledged e = false) by (unfold acknowledged; now rewrite R).
  inversion H as [e0 Hc Hr Hl | e0 A1 Hw Hr Hl | A1 A2 T Hr Hl
                  | e0 A1 A2 T0 T1 Hg Hr Hl | v A1 A2 T0 T1 Hg D Hr Hl
                  | v t A1 A2 T0 T1 Hg D Hr Hl];
    try assert (G1 : forallb acknowledged [container_event cfg w s] = true)
      by (cbn [forallb]; now rewrite A1);
    try assert (G2 : forallb acknowledged
                       [container_event cfg w s; write_event cfg w f s] = true)
      by (cbn [forallb]; now rewrite A1, A2);
    try assert (G3 : forallb acknowledged
                       [container_event cfg w s; write_event cfg w f s;
                        grant_event cfg w f s] = true)
      by (cbn [forallb]; unfold acknowledged at 3; now rewrite A1, A2, Hg).
  - destruct (rejected_is_last [] _ _ _ _ eq_refl (eq_sym Hl) Re)
      as (-> & -> & ->).
    rewrite Hc in R. injection R as ->. auto.
  - destruct (rejected_is_last _ _ _ _ _ G1 (eq_sym Hl) Re) as (-> & -> & ->).
    rewrite Hw in R. injection R as ->. auto.
  - pose proof (rejected_not_among _ _ _ _ G2 (eq_sym Hl)). congruence.
  - destruct (rejected_is_last _ _ _ _ _ G2 (eq_sym Hl) Re) as (-> & -> & ->).
    rewrite Hg in R. injection R as ->. auto.
  - pose proof (rejected_not_among _ _ _ _ G3 (eq_sym Hl)). congruence.
  - pose proof (rejected_not_among _ _ _ _ G3 (eq_sym Hl)). congruence.
Qed.

(** X4. An expiry that is not a number (a [SAS_TOKEN_EXPIRY_MINUTES] such as
    [soon]) makes every upload fail, and only after the file has been
    written: no delegation key is ever requested, the answer is never
    the upload body, and when the container and the write are
    acknowledged the calls are exactly those two and the answer is
    status 500 with the detail [Invalid time value]. *)
Theorem nan_expiry_fails_after_writing cfg w f s :
  sasExpiryMinutes cfg = NaN ->
  exists r s',
    upload_handler cfg w (Some f) s = (Ok r, s')
    /\ statusCode r = 500
    /\ upload_success r = None
    /\ forallb (fun e => negb (is_grant_request (ev_call e)))
         (calls_during (upload_handler cfg w (Some f)) s) = true
    /\ (acknowledged (container_event cfg w s) = true ->
        acknowledged (write_event cfg w f s) = true ->
        calls_during (upload_handler cfg w (Some f)) s
        = [container_event cfg w s; write_event cfg w f s]
        /\ r = res_status_json 500 (ErrorJson
                 {| error := lit "Failed to upload file. Please try again.";
                    details := Some (lit "Invalid time value") |})).
Proof.
  intros M.
  assert (X : expiryTime cfg w s = None).
  { unfold expiryTime, expiry_ms. rewrite M.
    now destruct (valueOf (new_Date (Num (now w s)))). }
  destruct (upload_handler_handled cfg w f s) as (r & evs & n & E & H).
  exists r, {| ticks := n + ticks s; log := log s ++ evs |}.
  split; [exact E|]. rewrite (calls_during_eq _ _ _ _ _ E).
  destruct H as [e Hc | e A1 Hw | A1 A2 T | e A1 A2 T0 T1 Hg
                 | v A1 A2 T0 T1 Hg D | v t A1 A2 T0 T1 Hg D];
    try congruence.
  - repeat split; exfalso;
      match goal with
      | A : acknowledged (container_event _ _ _) = true |- _ =>
          unfold acknowledged in A; rewrite Hc in A; discriminate A
      end.
  - repeat split; exfalso;
      match goal with
      | A : acknowledged (write_event _ _ _ _) = true |- _ =>
          unfold acknowledged in A; rewrite Hw in A; discriminate A
      end.
  - repeat split.
Qed.

Lemma nan_expiry_fails_after_writing_witness :
  let cfg := {| storageAccountName := lit "sharesafely";
                containerName := lit "uploaded-files";
                sasExpiryMinutes := parseInt (lit "soon") |} in
  exists r s',
    upload_handler cfg steady_world (Some (sample_file "a.txt" 5)) init
      = (Ok r, s')
    /\ statusCode r = 500
    /\ List.map ev_call (log s')
       = [ CreateIfNotExists (lit "uploaded-files");
           Upload (lit "uploaded-files") (lit "1700000000000-a.txt")
             (bytes 5) 5 (lit "text/plain") ].
Proof.
  cbv zeta.
  destruct (nan_expiry_fails_after_writing
              {| storageAccountName := lit "sharesafely";
                 containerName := lit "uploaded-files";
                 sasExpiryMinutes := parseInt (lit "soon") |}
              steady_world (sample_file "a.txt" 5) init eq_refl)
    as (r & s' & E & S5 & _).
  exists r, s'. split; [exact E|]. split; [exact S5|].
  vm_compute in E. injection E as _ <-. reflexivity.
Defined.

(** ** When an upload succeeds *)

Lemma new_Date_Num z :
  new_Date (Num z) = if Z.abs z <=? MAX_TIME then Some z else None.
Proof. reflexivity. Qed.

Lemma new_Date_valid z : new_Date (Num z) <> None <-> Z.abs z <= MAX_TIME.
Proof.
  rewrite new_Date_Num. destruct (Z.leb_spec (Z.abs z) MAX_TIME) as [L|L].
  - split; [intros _; exact L | discriminate].
  - split; [congruence | lia].
Qed.

Lemma tenMinutesBefore_valid w s :
  tenMinutesBefore w s <> None
  <-> Z.abs (now w s) <= MAX_TIME
      /\ Z.abs (now w s - 10 * 60 * 1000) <= MAX_TIME.
Proof.
  unfold tenMinutesBefore. rewrite (new_Date_Num (now w s)).
  destruct (Z.leb_spec (Z.abs (now w s)) MAX_TIME) as [L|L];
    cbn [valueOf num_sub num_add num_neg].
  - rewrite new_Date_valid. tauto.
  - cbn [new_Date]. split; [congruence | lia].
Qed.

Lemma expiryTime_valid cfg w s :
  expiryTime cfg w s <> None
  <-> exists minutes,
        sasExpiryMinutes cfg = Num minutes
        /\ Z.abs (now w s) <= MAX_TIME
        /\ Z.abs (now w s + minutes * 60 * 1000) <= MAX_TIME.
Proof.
  split.
  - intros H. destruct (expiryTime_Some _ _ _ H) as (m & M & X).
    exists m. split; [exact M|].
    unfold expiryTime, expiry_ms in H. rewrite M in H.
    rewrite (new_Date_Num (now w s)) in H.
    destruct (Z.leb_spec (Z.abs (now w s)) MAX_TIME) as [L|L];
      cbn [valueOf num_add num_mul] in H.
    + apply new_Date_valid in H. auto.
    + exfalso. now apply H.
  - intros (m & M & L & B). unfold expiryTime, expiry_ms.
    rewrite M, (new_Date_Num (now w s)), (proj2 (Z.leb_le _ _) L).
    cbn [valueOf num_add num_mul]. now apply new_Date_valid.
Qed.

Lemma display_expiry_valid cfg w s minutes :
  sasExpiryMinutes cfg = Num minutes ->
  display_expiry cfg w s <> None
  <-> Z.abs (display_now w s + minutes * 60 * 1000) <= MAX_TIME.
Proof.
  intros M. unfold display_expiry, expiry_ms. rewrite M.
  cbn [num_add num_mul]. apply new_Date_valid.
Qed.

Lemma acknowledged_reply e : acknowledged e = true <-> exists v, ev_reply e = Resolved v.
Proof.
  unfold acknowledged. destruct (ev_reply e) as [v|err]; split;
    try discriminate; eauto. now intros [v [=]].
Qed.

(** X5. An upload of a present file succeeds exactly when the storage
    service acknowledges the three calls and the four dates the handler
    builds are valid: the reading taken for the grant, ten minutes before
    it, the grant's expiry, and the expiry shown to the caller. *)
Theorem upload_succeeds_iff cfg w f s :
  (exists b s',
     upload_handler cfg w (Some f) s = (Ok (res_json (UploadJson b)), s'))
  <->
  acknowledged (container_event cfg w s) = true
  /\ acknowledged (write_event cfg w f s) = true
  /\ acknowledged (grant_event cfg w f s) = true
  /\ exists minutes,
       sasExpiryMinutes cfg = Num minutes
       /\ Z.abs (now w s) <= MAX_TIME
       /\ Z.abs (now w s - 10 * 60 * 1000) <= MAX_TIME
       /\ Z.abs (now w s + minutes * 60 * 1000) <= MAX_TIME
       /\ Z.abs (display_now w s + minutes * 60 * 1000) <= MAX_TIME.
Proof.
  destruct (upload_handler_handled cfg w f s) as (r & evs & n & E & H).
  rewrite E. split.
  - intros (b & s' & [= -> _]).
    inversion H as [| | | | | v t A1 A2 T0 T1 Hg D Hr Hl].
    apply tenMinutesBefore_valid in T0 as [B0 B1].
    apply expiryTime_valid in T1 as (m & M & _ & B2).
    assert (B3 : display_expiry cfg w s <> None) by congruence.
    apply (display_expiry_valid _ _ _ _ M) in B3.
    repeat split; try assumption.
    + apply acknowledged_reply. eauto.
    + exists m. auto.
  - intros (A1 & A2 & A3 & m & M & B0 & B1 & B2 & B3).
    assert (T0 : tenMinutesBefore w s <> None)
      by (apply tenMinutesBefore_valid; auto).
    assert (T1 : expiryTime cfg w s <> None)
      by (apply expiryTime_valid; exists m; auto).
    assert (D : display_expiry cfg w s <> None)
      by (now apply (display_expiry_valid _ _ _ _ M)).
    unfold acknowledged in A1, A2, A3.
    destruct H as [e Hc | e _ Hw | _ _ [T|T] | e _ _ _ _ Hg
                   | v _ _ _ _ Hg D' | v t _ _ _ _ Hg D'];
      try (rewrite Hc in A1; discriminate);
      try (rewrite Hw in A2; discriminate);
      try (rewrite Hg in A3; discriminate);
      try congruence.
    eexists _, _. reflexivity.
Qed.

Lemma upload_succeeds_iff_witness :
  exists b s',
    upload_handler sample_cfg steady_world (Some (sample_file "a.txt" 5)) init
    = (Ok (res_json (UploadJson b)), s').
Proof.
  apply (proj2 (upload_succeeds_iff sample_cfg steady_world
                  (sample_file "a.txt" 5) init)).
  repeat split.
  exists 60. repeat split; vm_compute; discriminate.
Defined.

(** ** What the request's metadata does not change *)

(** X6. The content type declared by the client for the file part, like the
    [size] multer records, plays no part: two requests that agree on the
    file name and the bytes are answered alike and send the same calls. *)
Theorem declared_type_is_ignored cfg w p p' s :
  filename p = filename p' ->
  content p = content p' ->
  post_upload cfg w (Some p) s = post_upload cfg w (Some p') s.
Proof.
  intros N C. unfold post_upload, single. rewrite <- N, <- C.
  destruct (filename p) as [|c name]; [reflexivity|].
  destruct (limits_fileSize upload <? buf_length (content p))%N; reflexivity.
Qed.

Lemma declared_type_is_ignored_witness :
  post_upload sample_cfg steady_world (Some (sample_part "a.png" 5)) init
  = post_upload sample_cfg steady_world
      (Some {| filename := lit "a.png"; part_mimetype := lit "text/html";
               content := bytes 5 |}) init.
Proof.
  apply declared_type_is_ignored; reflexivity.
Defined.

(** ** Keys *)

Lemma uint_units_inj u u' : uint_units u = uint_units u' -> u = u'.
Proof.
  revert u'. induction u; destruct u'; cbn [uint_units]; intros E;
    try discriminate E; try reflexivity;
    injection E as E; f_equal; now apply IHu.
Qed.

Lemma Number_toString_inj t t' :
  0 <= t -> 0 <= t' -> Number_toString t = Number_toString t' -> t = t'.
Proof.
  destruct t as [|p|p], t' as [|p'|p']; intros H H' E; try lia;
    cbn [Number_toString] in E.
  - exfalso. apply (Unsigned.to_uint_nonzero p').
    apply uint_units_inj. now rewrite <- E.
  - exfalso. apply (Unsigned.to_uint_nonzero p).
    apply uint_units_inj. now rewrite E.
  - f_equal. now apply Unsigned.to_uint_inj, uint_units_inj.
Qed.

Lemma digits_without_hyphen t : 0 <= t -> ~ In CHAR_HYPHEN (Number_toString t).
Proof.
  intros H I. pose proof (Number_toString_digits t H) as D.
  rewrite forallb_forall in D. specialize (D _ I). discriminate D.
Qed.

(** X7. Two keys are equal exactly when they were derived at the same clock
    reading from names with the same sanitized form: uploads at
    different milliseconds never share a key, and within one millisecond
    two names collide when (and only when) their sanitized forms agree. *)
Theorem keys_equal_iff w f s w' f' s' :
  0 <= timestamp w s -> 0 <= timestamp w' s' ->
  key w f s = key w' f' s'
  <-> timestamp w s = timestamp w' s'
      /\ sanitize (originalname f) = sanitize (originalname f').
Proof.
  intros H H'. unfold key, blob_name. split.
  - intros E.
    destruct (split_at_first CHAR_HYPHEN _ _ _ _
                (digits_without_hyphen _ H) (digits_without_hyphen _ H') E)
      as [T S].
    split; [now apply Number_toString_inj | exact S].
  - now intros [-> ->].
Qed.

Lemma keys_equal_iff_witness :
  key steady_world (sample_file "a b.txt" 5) init
  = key steady_world (sample_file "a_b.txt" 9) init.
Proof.
  apply (proj2 (keys_equal_iff steady_world (sample_file "a b.txt" 5) init
                  steady_world (sample_file "a_b.txt" 9) init
                  ltac:(vm_compute; discriminate)
                  ltac:(vm_compute; discriminate))).
  split; reflexivity.
Defined.

(** X8. Sanitization leaves a name as it is exactly when every code unit of
    the name is in [[A-Za-z0-9.-]] or is an underscore. *)
Theorem sanitize_fixed_point name :
  sanitize name = name
  <-> forallb (fun c => is_name_char c || (c =? CHAR_UNDERSCORE)%N) name = true.
Proof.
  unfold sanitize, replace_outside.
  induction name as [|c name IH]; [easy|].
  cbn [List.map forallb]. rewrite andb_true_iff, <- IH. split.
  - intros [= Ec En]. split; [|exact En].
    destruct (is_name_char c); [reflexivity|].
    cbn. apply N.eqb_eq. now symmetry.
  - intros [Hc ->]. f_equal.
    destruct (is_name_char c); [reflexivity|].
    cbn in Hc. apply N.eqb_eq in Hc. now symmetry.
Qed.

Lemma sanitize_fixed_point_witness :
  sanitize (lit "Q3_report-v1.2.pdf") = lit "Q3_report-v1.2.pdf".
Proof.
  apply (proj2 (sanitize_fixed_point (lit "Q3_report-v1.2.pdf"))).
  reflexivity.
Defined.

Lemma uint_units_key_chars u : forallb is_key_char (uint_units u) = true.
Proof. induction u; cbn [uint_units forallb]; try rewrite IHu; reflexivity. Qed.

Lemma Number_toString_key_chars t :
  forallb is_key_char (Number_toString t) = true.
Proof.
  destruct t as [|p|p]; cbn [Number_toString forallb];
    [reflexivity | apply uint_units_key_chars |].
  now rewrite uint_units_key_chars.
Qed.

(** X9. Whatever the clock reading and the name, every code unit of the key
    is in [[A-Za-z0-9._-]]: the key holds no slash, so no upload can
    name a blob inside a virtual directory, and its length is that of
    the printed reading, plus one, plus that of the name. *)
Theorem key_alphabet t name :
  forallb is_key_char (blob_name t (sanitize name)) = true
  /\ ~ In CHAR_FORWARD_SLASH (blob_name t (sanitize name))
  /\ List.length (blob_name t (sanitize name))
     = (List.length (Number_toString t) + 1 + List.length name)%nat.
Proof.
  assert (K : forallb is_key_char (blob_name t (sanitize name)) = true).
  { unfold blob_name.
    rewrite !forallb_app, Number_toString_key_chars, sanitize_key_chars.
    reflexivity. }
  split; [exact K|]. split.
  - intros I. rewrite forallb_forall in K. specialize (K _ I). discriminate K.
  - unfold blob_name. rewrite !length_app, sanitize_length. cbn. lia.
Qed.

(** ** Content types *)

Lemma extname_loop_no_dot rpath i st :
  ~ In CHAR_DOT rpath ->
  Path.startDot st = -1 ->
  Path.startDot (Path.extname_loop rpath i st) = -1.
Proof.
  revert i st. induction rpath as [|code rest IH]; intros i st ND SD;
    [exact SD|].
  assert (NDr : ~ In CHAR_DOT rest) by (intros I; apply ND; now right).
  assert (Nc : (code =? CHAR_DOT)%N = false)
    by (apply N.eqb_neq; intros ->; apply ND; now left).
  cbn [Path.extname_loop]. rewrite Nc.
  destruct (code =? CHAR_FORWARD_SLASH)%N.
  - destruct (negb (Path.matchedSlash st)); [exact SD | now apply IH].
  - destruct (Path.end_ st =? -1); cbn [Path.startDot]; rewrite SD;
      cbn [Z.eqb negb]; apply IH; auto.
Qed.

(** X10. A file name without a dot has no extension, and gets the generic
    binary type. *)
Theorem dotless_name_is_octet_stream fileName :
  ~ In CHAR_DOT fileName ->
  Path.extname fileName = []
  /\ getContentType fileName = lit "application/octet-stream".
Proof.
  intros ND.
  assert (E : Path.extname fileName = []).
  { unfold Path.extname.
    rewrite extname_loop_no_dot; [reflexivity | | reflexivity].
    intros I. apply ND. now apply in_rev. }
  split; [exact E|]. unfold getContentType. now rewrite E.
Qed.

Lemma dotless_name_is_octet_stream_witness :
  getContentType (lit "uploads/README") = lit "application/octet-stream".
Proof.
  apply (dotless_name_is_octet_stream (lit "uploads/README")).
  vm_compute. intuition discriminate.
Defined.

(** One turn of the loop of [path.extname]. *)
Lemma extname_loop_step code rest i st :
  Path.extname_loop (code :: rest) i st
  = if (code =? CHAR_FORWARD_SLASH)%N then
      if negb (Path.matchedSlash st) then
        {| Path.startDot := Path.startDot st; Path.startPart := i + 1;
           Path.end_ := Path.end_ st;
           Path.matchedSlash := Path.matchedSlash st;
           Path.preDotState := Path.preDotState st |}
      else Path.extname_loop rest (i - 1) st
    else
      let st1 :=
        if Path.end_ st =? -1 then
          {| Path.startDot := Path.startDot st;
             Path.startPart := Path.startPart st;
             Path.end_ := i + 1; Path.matchedSlash := false;
             Path.preDotState := Path.preDotState st |}
        else st in
      let st2 :=
        if (code =? CHAR_DOT)%N then
          if Path.startDot st1 =? -1 then
            {| Path.startDot := i; Path.startPart := Path.startPart st1;
               Path.end_ := Path.end_ st1;
               Path.matchedSlash := Path.matchedSlash st1;
               Path.preDotState := Path.preDotState st1 |}
          else if negb (Path.preDotState st1 =? 1) then
            {| Path.startDot := Path.startDot st1;
               Path.startPart := Path.startPart st1;
               Path.end_ := Path.end_ st1;
               Path.matchedSlash := Path.matchedSlash st1;
               Path.preDotState := 1 |}
          else st1
        else if negb (Path.startDot st1 =? -1) then
          {| Path.startDot := Path.startDot st1;
             Path.startPart := Path.startPart st1;
             Path.end_ := Path.end_ st1;
             Path.matchedSlash := Path.matchedSlash st1;
             Path.preDotState := -1 |}
        else st1 in
      Path.extname_loop rest (i - 1) st2.
Proof. reflexivity. Qed.

Lemma extname_loop_plain (l rest : jsstring) i E :
  ~ In CHAR_DOT l -> ~ In CHAR_FORWARD_SLASH l -> E <> -1 ->
  Path.extname_loop (l ++ rest) i
    {| Path.startDot := -1; Path.startPart := 0; Path.end_ := E;
       Path.matchedSlash := false; Path.preDotState := 0 |}
  = Path.extname_loop rest (i - Z.of_nat (List.length l))
      {| Path.startDot := -1; Path.startPart := 0; Path.end_ := E;
         Path.matchedSlash := false; Path.preDotState := 0 |}.
Proof.
  intros ND NS HE. revert i.
  induction l as [|x l IH]; intros i.
  - cbn. now rewrite Z.sub_0_r.
  - assert (Nd : (x =? CHAR_DOT)%N = false)
      by (apply N.eqb_neq; intros ->; apply ND; now left).
    assert (Ns : (x =? CHAR_FORWARD_SLASH)%N = false)
      by (apply N.eqb_neq; intros ->; apply NS; now left).
    assert (He : (E =? -1) = false) by now apply Z.eqb_neq.
    change ((x :: l) ++ rest) with (x :: l ++ rest).
    rewrite extname_loop_step, Nd, Ns. cbn [Path.end_]. rewrite He.
    cbv zeta. cbn [Path.startDot Z.eqb negb].
    rewrite IH.
    + f_equal. cbn [List.length]. lia.
    + intros I. apply ND. now right.
    + intros I. apply NS. now right.
Qed.

Lemma extname_loop_keeps rest i st j E :
  j <> -1 -> E <> -1 ->
  Path.startDot st = j -> Path.end_ st = E -> Path.preDotState st <> 0 ->
  Path.startDot (Path.extname_loop rest i st) = j
  /\ Path.end_ (Path.extname_loop rest i st) = E
  /\ Path.preDotState (Path.extname_loop rest i st) <> 0.
Proof.
  intros Hj HE. revert i st.
  induction rest as [|code rest IH]; intros i st SD EN PD; [auto|].
  assert (He : (E =? -1) = false) by now apply Z.eqb_neq.
  assert (Hs : (j =? -1) = false) by now apply Z.eqb_neq.
  rewrite extname_loop_step, EN, He. cbv zeta.
  destruct (code =? CHAR_FORWARD_SLASH)%N.
  - destruct (negb (Path.matchedSlash st)); [cbn; auto | now apply IH].
  - rewrite SD, Hs. cbn [negb].
    destruct (code =? CHAR_DOT)%N.
    + destruct (negb (Path.preDotState st =? 1)); apply IH; cbn; auto.
      discriminate.
    + apply IH; cbn; auto. discriminate.
Qed.

(** The extension of a name that ends in a dot and a run of code units
    without dot or slash, after a code unit that is not a slash. *)
Lemma extname_of_extension pre c ext :
  c <> CHAR_FORWARD_SLASH -> ext <> [] ->
  ~ In CHAR_DOT ext -> ~ In CHAR_FORWARD_SLASH ext ->
  Path.extname (pre ++ c :: CHAR_DOT :: ext) = CHAR_DOT :: ext.
Proof.
  intros Hc He ND NS. unfold Path.extname.
  set (path := pre ++ c :: CHAR_DOT :: ext).
  set (j := Z.of_nat (List.length pre) + 1).
  set (E := Z.of_nat (List.length path)).
  assert (LE : E = j + 1 + Z.of_nat (List.length ext)).
  { unfold E, j, path. rewrite length_app. cbn [List.length]. lia. }
  assert (Hext : (0 < List.length ext)%nat)
    by (destruct ext; [congruence | cbn; lia]).
  assert (R : List.rev path = List.rev ext ++ CHAR_DOT :: c :: List.rev pre).
  { unfold path. rewrite rev_app_distr. cbn [List.rev].
    now rewrite <- !app_assoc. }
  rewrite R.
  destruct (List.rev ext) as [|x l] eqn:X.
  { apply (f_equal (@List.length N)) in X. rewrite length_rev in X.
    cbn in X. lia. }
  assert (Lx : (List.length ext = S (List.length l))%nat).
  { rewrite <- (length_rev ext), X. reflexivity. }
  assert (Px : forall y, In y (x :: l) -> In y ext).
  { intros y I. apply in_rev. now rewrite X. }
  assert (Nd : (x =? CHAR_DOT)%N = false).
  { apply N.eqb_neq. intros ->. apply ND, Px. now left. }
  assert (Ns : (x =? CHAR_FORWARD_SLASH)%N = false).
  { apply N.eqb_neq. intros ->. apply NS, Px. now left. }
  change ((x :: l) ++ CHAR_DOT :: c :: List.rev pre)
    with (x :: l ++ CHAR_DOT :: c :: List.rev pre).
  rewrite extname_loop_step, Nd, Ns. cbv zeta.
  cbn [Path.scan0 Path.end_ Path.startDot Path.startPart Path.matchedSlash
       Path.preDotState Z.eqb Pos.eqb negb].
  replace (E - 1 + 1) with E by lia.
  rewrite extname_loop_plain; [| intros I; apply ND, Px; now right
                               | intros I; apply NS, Px; now right | lia].
  replace (E - 1 - 1 - Z.of_nat (List.length l)) with j by lia.
  assert (HE : (E =? -1) = false) by (apply Z.eqb_neq; lia).
  assert (Hj : (j =? -1) = false) by (apply Z.eqb_neq; unfold j; lia).
  rewrite extname_loop_step. cbn [Path.end_ Path.startDot
       Path.startPart Path.matchedSlash Path.preDotState].
  change (CHAR_DOT =? CHAR_FORWARD_SLASH)%N with false.
  rewrite N.eqb_refl, HE. cbv zeta.
  cbn [Path.end_ Path.startDot Path.startPart Path.matchedSlash
       Path.preDotState Z.eqb Pos.eqb negb].
  rewrite extname_loop_step. cbn [Path.end_].
  rewrite (proj2 (N.eqb_neq c CHAR_FORWARD_SLASH) Hc), HE. cbv zeta.
  cbn [Path.end_ Path.startDot Path.startPart Path.matchedSlash
       Path.preDotState].
  rewrite Hj. cbn [negb].
  match goal with
  | |- context [Path.extname_loop (List.rev pre) ?i ?st] =>
      destruct (extname_loop_keeps (List.rev pre) i st j E)
        as (SD & EN & PD);
      [unfold j; lia | lia
       | destruct (c =? CHAR_DOT)%N; reflexivity
       | destruct (c =? CHAR_DOT)%N; reflexivity
       | destruct (c =? CHAR_DOT)%N; discriminate |];
      set (final := Path.extname_loop (List.rev pre) i st) in *
  end.
  rewrite SD, EN, Hj, HE.
  assert (P0 : (Path.preDotState final =? 0) = false) by now apply Z.eqb_neq.
  assert (P1 : (j =? E - 1) = false) by (apply Z.eqb_neq; lia).
  rewrite P0, P1, andb_false_r. cbn [orb andb].
  unfold slice, path.
  replace (Z.to_nat j) with (S (List.length pre)) by (unfold j; lia).
  replace (Z.to_nat (E - j)) with (S (List.length ext)) by lia.
  rewrite skipn_app, skipn_all2 by lia.
  replace (S (List.length pre) - List.length pre)%nat with 1%nat by lia.
  cbn [app skipn]. rewrite firstn_all2; [reflexivity | cbn; lia].
Qed.

Lemma lower_is_dot_or_slash x :
  let y := if is_upper x then (x + 32)%N else x in
  (y = CHAR_DOT -> x = CHAR_DOT) /\ (y = CHAR_FORWARD_SLASH -> x = CHAR_FORWARD_SLASH).
Proof.
  cbv zeta. unfold is_upper, in_range, CHAR_DOT, CHAR_FORWARD_SLASH.
  destruct (N.leb_spec 65 x), (N.leb_spec x 90); cbn [andb]; split; lia.
Qed.

Lemma toLowerCase_plain e :
  ~ In CHAR_DOT (toLowerCase e) -> ~ In CHAR_FORWARD_SLASH (toLowerCase e) ->
  ~ In CHAR_DOT e /\ ~ In CHAR_FORWARD_SLASH e.
Proof.
  unfold toLowerCase. intros ND NS. split; intros I.
  - apply ND. apply in_map_iff. exists CHAR_DOT. now split.
  - apply NS. apply in_map_iff. exists CHAR_FORWARD_SLASH. now split.
Qed.

(** What the table's entries have in common: each key is a dot followed
    by a non-empty run without dot or slash, each value is non-empty, and
    looking a key up gives its own value. *)
Lemma contentTypes_entries k mime :
  In (k, mime) contentTypes ->
  property contentTypes k = Some mime
  /\ mime <> []
  /\ exists k', k = CHAR_DOT :: k' /\ k' <> []
                /\ ~ In CHAR_DOT k' /\ ~ In CHAR_FORWARD_SLASH k'.
Proof.
  unfold contentTypes. intros I.
  repeat (destruct I as [[= <- <-]|I];
          [split; [reflexivity|]; split; [discriminate|];
           eexists; split; [reflexivity|]; split; [discriminate|];
           split; vm_compute; intuition discriminate |]).
  destruct I.
Qed.

(** X11. A name that ends in an extension of the table, written in any mix of
    upper and lower case, after a code unit that is not a slash, gets
    the content type the table gives for that extension. *)
Theorem known_extension_in_any_case dir c e k mime :
  In (k, mime) contentTypes ->
  toLowerCase e = k ->
  c <> CHAR_FORWARD_SLASH ->
  Path.extname (dir ++ c :: e) = e
  /\ getContentType (dir ++ c :: e) = mime.
Proof.
  intros I L Hc.
  destruct (contentTypes_entries _ _ I) as (P & M & k' & -> & K0 & KD & KS).
  destruct e as [|d e']; [discriminate L|].
  unfold toLowerCase in L. cbn [List.map] in L. injection L as Ld Le.
  apply (proj1 (lower_is_dot_or_slash d)) in Ld. subst d.
  fold (toLowerCase e') in Le.
  destruct (toLowerCase_plain e') as [ND NS]; [now rewrite Le .. |].
  assert (Ne : e' <> []) by (intros ->; now apply K0).
  assert (X : Path.extname (dir ++ c :: CHAR_DOT :: e') = CHAR_DOT :: e')
    by now apply extname_of_extension.
  split; [exact X|].
  unfold getContentType. rewrite X.
  change (toLowerCase (CHAR_DOT :: e')) with (CHAR_DOT :: toLowerCase e').
  rewrite Le, P. now destruct mime.
Qed.

Lemma known_extension_in_any_case_witness :
  getContentType (lit "scans/Invoice 2024.v2" ++ lit "a" ++ lit ".JpEg")
  = lit "image/jpeg".
Proof.
  apply (known_extension_in_any_case (lit "scans/Invoice 2024.v2") 97%N
           (lit ".JpEg") (lit ".jpeg") (lit "image/jpeg")).
  - vm_compute. intuition.
  - reflexivity.
  - vm_compute. discriminate.
Defined.

(** ** The whole route *)

Lemma single_accepts_bounds req f :
  single upload req = Next (Some f) ->
  originalname f <> []
  /\ (buf_length (buffer f) <= 100 * 1024 * 1024)%N.
Proof.
  unfold single. destruct req as [p|]; [|discriminate].
  destruct (filename p) as [|c name] eqn:E; [discriminate|].
  change (limits_fileSize upload) with (100 * 1024 * 1024)%N.
  destruct (N.ltb_spec (100 * 1024 * 1024) (buf_length (content p)));
    [discriminate|].
  intros [= <-]. cbn. split; [discriminate | assumption].
Qed.

(** X12. Every write that [POST /upload] sends carries the bytes of the
    submitted file, at most 100 MiB of them, declared at their true
    length, to the configured container, tagged with the content type of
    the submitted name, under a key that matches
    [^[0-9]+-[A-Za-z0-9._-]+$] (the clock reading not being negative). *)
Theorem writes_of_post_upload cfg w req s e c k data len mime :
  0 <= clock w (ticks s) ->
  In e (calls_during (post_upload cfg w req) s) ->
  ev_call e = Upload c k data len mime ->
  exists p,
    req = Some p
    /\ c = containerName cfg
    /\ data = content p
    /\ len = buf_length data
    /\ (len <= 100 * 1024 * 1024)%N
    /\ mime = getContentType (filename p)
    /\ matches key_pattern k.
Proof.
  intros T I U.
  destruct (post_upload_answers cfg w req s) as (r & evs0 & n0 & E).
  destruct (post_upload_calls _ _ _ _ _ _ E) as (f & evs & n & A & C & H).
  { intros X. rewrite X in I. destruct I. }
  rewrite C in I.
  destruct (single_accepts _ _ A) as (p & -> & Hn & Hb).
  destruct (single_accepts_bounds _ _ A) as (Ne & Le).
  assert (W : e = write_event cfg w f s).
  { destruct H; cbn [In] in I;
      repeat (destruct I as [<-|I]; [try discriminate U; try reflexivity|]);
      destruct I. }
  subst e. cbn in U. injection U as <- <- <- <- <-.
  assert (M : matches key_pattern (key w f s)).
  { unfold key.
    apply blob_name_matches; [exact T | | apply sanitize_key_chars].
    intros X. apply Ne. apply (f_equal (@List.length N)) in X.
    rewrite sanitize_length in X. now destruct (originalname f). }
  exists p. repeat split; try assumption; try reflexivity.
  now rewrite Hn.
Qed.

Lemma writes_of_post_upload_witness :
  matches key_pattern (lit "1700000000000-my_file_1_.txt").
Proof.
  destruct (writes_of_post_upload sample_cfg steady_world
              (Some (sample_part "my file(1).txt" 5)) init
              (write_event sample_cfg steady_world
                 (sample_file "my file(1).txt" 5) init)
              (lit "uploaded-files") (lit "1700000000000-my_file_1_.txt")
              (bytes 5) 5%N (lit "text/plain"))
    as (p & _ & _ & _ & _ & _ & _ & M).
  - vm_compute. discriminate.
  - vm_compute. right. now left.
  - reflexivity.
  - exact M.
Defined.

(** X13. Every [POST /upload] is answered, in one of three ways: status 200
    with the upload body; status 400, with an error and no detail, when
    multer left no file; status 500 with an error and a detail. *)
Theorem post_upload_answer_kinds cfg w req s :
  exists r s',
    post_upload cfg w req s = (Ok r, s')
    /\ ((statusCode r = 200
         /\ exists b, body r = UploadJson b /\ success b = true)
        \/ (statusCode r = 400
            /\ single upload req = Next None
            /\ exists msg, body r = ErrorJson {| error := msg; details := None |})
        \/ (statusCode r = 500
            /\ exists msg detail,
                 body r = ErrorJson {| error := msg; details := Some detail |})).
Proof.
  unfold post_upload. destruct (single upload req) as [[f|]|err] eqn:A.
  - destruct (upload_handler_handled cfg w f s) as (r & evs & n & E & H).
    eexists _, _. split; [exact E|].
    destruct H; try (right; right; split; [reflexivity|];
                     eexists _, _; reflexivity).
    left. split; [reflexivity|]. eexists. split; reflexivity.
  - eexists _, _. split; [reflexivity|]. right. left.
    split; [reflexivity|]. split; [reflexivity|]. eexists. reflexivity.
  - eexists _, _. split; [reflexivity|]. right. right.
    split; [reflexivity|]. eexists _, _. reflexivity.
Qed.

(** X14. On every successful upload the grant in the returned URL spans
    the configured number of minutes plus ten, and the expiry shown to
    the caller is later than the grant's by the time from the whole
    second of the grant's clock reading to the answer's reading: the
    clock's advance between the two readings plus the milliseconds the
    token drops. The configured number is not checked for sign: the
    grant starts before it expires exactly when that number is above
    -10. *)
Theorem grant_span_and_shown_expiry cfg w req s r s' b :
  post_upload cfg w req s = (Ok r, s') ->
  upload_success r = Some b ->
  let granted_at := clock w (S (ticks s)) in
  let answered_at := clock w (S (S (ticks s))) in
  exists starts expires minutes shown,
    sv_startsOn (sas_values (su_token (sasUrl b))) = Some starts
    /\ sv_expiresOn (sas_values (su_token (sasUrl b))) = Some expires
    /\ expiresInMinutes b = Num minutes
    /\ expiresAt b = ISO shown
    /\ expires - starts = (minutes + 10) * 60 * 1000
    /\ shown - expires = (answered_at - granted_at) + granted_at mod 1000
    /\ (granted_at <= answered_at -> expires <= shown)
    /\ (starts < expires <-> -10 < minutes).
Proof.
  intros P S. cbv zeta.
  destruct (post_upload_success _ _ _ _ _ _ _ P S) as (f & _ & E).
  destruct (upload_handler_handled cfg w f s) as (r0 & evs & n & E0 & H).
  rewrite E in E0. injection E0 as <- _.
  destruct (handled_success _ _ _ _ _ _ _ _ H S)
    as (v & t & -> & _ & _ & _ & T0 & T1 & D).
  destruct (truncated_expiry _ _ _ T1) as (minutes & M & X).
  pose proof (display_expiry_Some _ _ _ _ _ M D) as ->.
  exists (1000 * (now w s / 1000) - 10 * 60 * 1000),
    (1000 * (now w s / 1000) + minutes * 60 * 1000),
    minutes, (display_now w s + minutes * 60 * 1000).
  cbn [granted sasUrl su_token sas_values sv_startsOn sv_expiresOn
       expiresInMinutes expiresAt].
  rewrite (truncated_start _ _ T0), X.
  unfold display_now. fold (now w s).
  pose proof (Z.mod_pos_bound (now w s) 1000 ltac:(lia)).
  pose proof (Z.div_mod (now w s) 1000 ltac:(lia)).
  repeat split; try assumption; lia.
Qed.

Lemma grant_span_and_shown_expiry_witness :
  exists starts expires shown,
    expires - starts = (60 + 10) * 60 * 1000
    /\ starts = 1699999400000
    /\ shown - expires = 500.
Proof.
  destruct (grant_span_and_shown_expiry sample_cfg steady_world
              (Some (sample_part "a.txt" 5)) init _ _ _
              ltac:(vm_compute; reflexivity) ltac:(reflexivity))
    as (starts & expires & minutes & shown & A & A' & B & B' & C & D & _).
  exists starts, expires, shown.
  cbn in A, A', B, B'. injection A as <-. injection B as <-.
  split; [exact C|]. split; [reflexivity|].
  injection A' as <-. injection B' as <-. reflexivity.
Defined.

Lemma first_rejection_ends_request_witness :
  let denied := {| message := lit "AuthorizationPermissionMismatch" |} in
  exists r s',
    post_upload sample_cfg no_grant_world (Some (sample_part "a.txt" 5)) init
      = (Ok r, s')
    /\ r = res_status_json 500 (ErrorJson
             {| error := lit "Failed to upload file. Please try again.";
                details := Some (message denied) |}).
Proof.
  cbv zeta.
  destruct (post_upload_answers sample_cfg no_grant_world
              (Some (sample_part "a.txt" 5)) init) as (r & evs & n & E).
  eexists _, _. split; [exact E|].
  apply (first_rejection_ends_request sample_cfg no_grant_world
           (Some (sample_part "a.txt" 5)) init r _
           [container_event sample_cfg no_grant_world init;
            write_event sample_cfg no_grant_world (sample_file "a.txt" 5) init]
           (grant_event sample_cfg no_grant_world (sample_file "a.txt" 5) init)
           [] {| message := lit "AuthorizationPermissionMismatch" |} E).
  - vm_compute. reflexivity.
  - reflexivity.
Defined.

(** ** The grant on its own *)

(** X15. [generateUserDelegationSAS] never asks the storage service about the
    blob it signs for: whatever the blob name, it leaves the same state
    behind (the same clock reading, the same single request for a
    delegation key, or none), and when it returns a URL for one name it
    returns one for any other, signed with the same key for the same
    window and differing in the blob name alone. *)
Theorem grant_is_issued_unseen cfg w k k' s :
  snd (generateUserDelegationSAS cfg w k s)
  = snd (generateUserDelegationSAS cfg w k' s)
  /\ forall u,
       fst (generateUserDelegationSAS cfg w k s) = Ok u ->
       exists u',
         fst (generateUserDelegationSAS cfg w k' s) = Ok u'
         /\ sas_key (su_token u') = sas_key (su_token u)
         /\ sv_startsOn (sas_values (su_token u'))
            = sv_startsOn (sas_values (su_token u))
         /\ sv_expiresOn (sas_values (su_token u'))
            = sv_expiresOn (sas_values (su_token u))
         /\ sv_blobName (sas_values (su_token u')) = k'
         /\ bc_blobName (su_blob u') = k'.
Proof.
  rewrite !generateUserDelegationSAS_run. cbv zeta.
  destruct (new_Date (num_sub _ _)) as [t0|]; [|split; [reflexivity|discriminate]].
  destruct (new_Date (num_add _ _)) as [t1|]; [|split; [reflexivity|discriminate]].
  cbn [ev_reply].
  destruct (service w (log s) (GetUserDelegationKey (Some t0) (Some t1)));
    (split; [reflexivity|]); [|discriminate].
  intros u [= <-]. eexists. split; [reflexivity|]. cbn. auto 6.
Qed.

Lemma grant_is_issued_unseen_witness :
  exists u',
    fst (generateUserDelegationSAS sample_cfg steady_world
           (lit "never-uploaded.bin") init) = Ok u'
    /\ bc_blobName (su_blob u') = lit "never-uploaded.bin".
Proof.
  destruct (proj2 (grant_is_issued_unseen sample_cfg steady_world
                     (lit "1700000000000-a.txt") (lit "never-uploaded.bin")
                     init) _ ltac:(vm_compute; reflexivity))
    as (u' & E & _ & _ & _ & _ & B).
  exists u'. split; [exact E | exact B].
Defined.
